(** * Costa VS Code extension: process bridge and polling supervisors

    A shallow embedding of [src/cli.ts], of the [UsageStream] class of
    [src/usageStream.ts] and of the login polling loop of the [costa.login]
    command handler in [src/index.ts], with the properties of the
    specification stated and proved over it.

    Asynchronous code is modelled the way the event loop runs it: a call to
    [cli.status()] is a pending promise held in the state together with the
    continuation awaiting it, timers live in a table of the runtime, and the
    environment picks the next macrotask (a caller's command, a timer that
    is due, the settling of a pending promise).  Everything a macrotask
    triggers through microtasks runs inside the same step. *)

From Stdlib Require Import ZArith List String Ascii Bool Lia.
Import ListNotations.
Local Open Scope list_scope.
Local Open Scope string_scope.
Local Open Scope Z_scope.

(** ** JavaScript values and results *)

(** The values a field read off a parsed JSON object can hold here.  Numbers
    are only passed along and compared with nothing, so an integer stands
    for them. *)
Inductive JsValue : Type :=
| JUndefined
| JNull
| JNumber (n : Z)
| JString (s : string).

(** [v ?? d] *)
Definition nullish (v d : JsValue) : JsValue :=
  match v with
  | JUndefined | JNull => d
  | _ => v
  end.

(** [v !== undefined] *)
Definition not_undefined (v : JsValue) : bool :=
  match v with
  | JUndefined => false
  | _ => true
  end.

(** The outcome of a call that may throw (or of a settled promise). *)
Inductive Res (A : Type) : Type :=
| Ok (a : A)
| Throw (message : string).
Arguments Ok {A} a.
Arguments Throw {A} message.

(** ** String helpers of the JavaScript runtime *)

Definition newline : string := String (ascii_of_nat 10) EmptyString.

(** [hay.includes(needle)] *)
Fixpoint includes (needle hay : string) : bool :=
  if String.prefix needle hay then true
  else match hay with
       | EmptyString => false
       | String _ rest => includes needle rest
       end.

(** A string is held as the bytes of its UTF-8 encoding. *)
Definition bytes (codes : list nat) : string :=
  fold_right (fun n s => String (ascii_of_nat n) s) EmptyString codes.

(** The code points [trim()] removes, WhiteSpace and LineTerminator of the
    language: U+0009 to U+000D, U+0020, U+00A0, U+1680, U+2000 to U+200A,
    U+2028, U+2029, U+202F, U+205F, U+3000 and U+FEFF, each as its
    encoding. *)
Definition white_space : list string :=
  map bytes
    [[9]; [10]; [11]; [12]; [13]; [32]; [194; 160]; [225; 154; 128];
     [226; 128; 128]; [226; 128; 129]; [226; 128; 130]; [226; 128; 131];
     [226; 128; 132]; [226; 128; 133]; [226; 128; 134]; [226; 128; 135];
     [226; 128; 136]; [226; 128; 137]; [226; 128; 138];
     [226; 128; 168]; [226; 128; 169]; [226; 128; 175]; [226; 129; 159];
     [227; 128; 128]; [239; 187; 191]]%nat.

(** The length of the entry of [table] that [s] starts with, 0 if none. *)
Definition white_length (table : list string) (s : string) : nat :=
  match find (fun w => String.prefix w s) table with
  | Some w => String.length w
  | None => O
  end.

(** [s] without the entries of [table] it starts with; [skip] counts the
    bytes of an entry still to drop. *)
Fixpoint strip (table : list string) (skip : nat) (s : string) : string :=
  match s with
  | EmptyString => EmptyString
  | String c rest =>
      match skip with
      | S k => strip table k rest
      | O =>
          match white_length table s with
          | O => s
          | S k => strip table k rest
          end
      end
  end.

Fixpoint reverse_onto (s acc : string) : string :=
  match s with
  | EmptyString => acc
  | String c rest => reverse_onto rest (String c acc)
  end.

Definition reverse (s : string) : string := reverse_onto s EmptyString.

Definition trimStart (s : string) : string := strip white_space 0 s.

(** At the end of a well-formed encoding the last code point is a white
    space exactly when its bytes, read backwards, begin the reversed
    string. *)
Definition trimEnd (s : string) : string :=
  reverse (strip (map reverse white_space) 0 (reverse s)).

Definition trim (s : string) : string := trimEnd (trimStart s).

(** Truthiness of a string. *)
Definition truthy (s : string) : bool := negb (s =? "")%string.

(** [s.endsWith(suffix)] *)
Fixpoint endsWith (s suffix : string) : bool :=
  if (s =? suffix)%string then true
  else match s with
       | EmptyString => false
       | String _ rest => endsWith rest suffix
       end.

(** * The process bridge, [src/cli.ts] *)
Module Cli.

Record LoginResult : Type := {
  login_status : string;
  login_message : option string;
  auth_url : option string;
  redirect_uri : option string;
  timeout_seconds : option Z
}.

Record StatusResult : Type := {
  logged_in : bool;
  points : JsValue;
  total_points : JsValue
}.

Record TokenResult : Type := {
  access_token : option string;
  expires_at : option Z;
  token_type : option string
}.

Record Uri : Type := { fsPath : option string }.

Record ExtensionContext : Type := {
  extensionPath : option string;
  extensionUri : option Uri
}.

(** The error object [execFile] hands to its callback. *)
Record ExecError : Type := {
  err_name : string;
  err_message : string;
  err_killed : bool;
  err_signal : option string;
  err_code : option Z
}.

(** [String(err)], as [Error.prototype.toString] computes it. *)
Definition String_of_error (e : ExecError) : string :=
  if (err_name e =? "")%string then err_message e
  else if (err_message e =? "")%string then err_name e
  else err_name e ++ ": " ++ err_message e.

(** What the callback of [execFile] receives. *)
Inductive ExecOutcome : Type :=
| ExecDone (stdout stderr : string)
| ExecFail (err : ExecError) (stdout stderr : string).

(** The host the extension runs on: [process.platform], [process.arch],
    the file system as [existsSync] sees it, what [execFile] does with a
    file, an argument vector and a timeout, and [JSON.parse] at each of
    the three result types. *)
Record Host : Type := {
  platform : string;
  arch : string;
  existsSync : string -> bool;
  execFile : string -> list string -> Z -> ExecOutcome;
  parseLogin : string -> Res LoginResult;
  parseStatus : string -> Res StatusResult;
  parseToken : string -> Res TokenResult
}.

Record Spawn : Type := {
  spawn_file : string;
  spawn_args : list string;
  spawn_timeout : Z
}.

(** The module-level variable [extensionContext] and the side effects of
    [run] that the properties speak about: the subprocesses spawned and
    the files whose mode was changed, latest first. *)
Record State : Type := {
  extensionContext : option ExtensionContext;
  spawned : list Spawn;
  chmods : list (string * Z)
}.

Definition initial : State :=
  {| extensionContext := None; spawned := []; chmods := [] |}.

Definition setContext (st : State) (context : ExtensionContext) : State :=
  {| extensionContext := Some context;
     spawned := spawned st;
     chmods := chmods st |}.

(** [path.sep] *)
Definition path_sep (h : Host) : string :=
  if (platform h =? "win32")%string then "\" else "/".

(** [path.join] on a root and plain segments (none of them empty, [.] or
    [..]): the parts joined by the separator of the platform.  The root is
    taken as the editor hands it over, already normalised. *)
Definition path_join (h : Host) (parts : list string) : string :=
  String.concat (path_sep h) parts.

(** [context?.extensionPath ?? context?.extensionUri?.fsPath] *)
Definition extRoot_of (context : ExtensionContext) : option string :=
  match extensionPath context with
  | Some p => Some p
  | None =>
      match extensionUri context with
      | Some u => fsPath u
      | None => None
      end
  end.

Definition getBundledCliPath (h : Host) (context : ExtensionContext)
  : Res string :=
  match extRoot_of context with
  | None => Throw "extension root path not available"
  | Some extRoot =>
      if negb (truthy extRoot) then
        Throw "extension root path not available"
      else if (platform h =? "darwin")%string then
        Ok (path_join h [extRoot; "res"; "bin"; "darwin-universal"; "costa"])
      else if (platform h =? "win32")%string then
        Ok (path_join h [extRoot; "res"; "bin"; "win32-x64"; "costa.exe"])
      else if (arch h =? "arm64")%string then
        Ok (path_join h [extRoot; "res"; "bin"; "linux-arm64"; "costa"])
      else
        Ok (path_join h [extRoot; "res"; "bin"; "linux-x64"; "costa"])
  end.

Record BridgeResult : Type := { stdout : string; stderr : string }.

(** The binary [run] ends up executing: the bundled one when it exists,
    the bare name otherwise. *)
Definition binToUse (h : Host) (bundledBin : string) : string :=
  if existsSync h bundledBin then bundledBin else "costa".

Definition not_found_message : string :=
  "Costa CLI not found. Please reinstall the extension or install costa CLI manually.".

Definition not_initialized_message : string :=
  "CLI context not initialized. Call setContext() first.".

(** The callback given to [execFile]. *)
Definition classify (bin : string) (o : ExecOutcome) : Res BridgeResult :=
  match o with
  | ExecFail err _ stderr =>
      let msg := trim stderr in
      if includes "ENOENT" (err_message err) && (bin =? "costa")%string then
        Throw not_found_message
      else
        Throw (if truthy msg
               then String_of_error err ++ newline ++ msg
               else String_of_error err)
  | ExecDone stdout stderr =>
      Ok {| stdout := stdout; stderr := stderr |}
  end.

Definition run (h : Host) (st : State) (args : list string)
  : Res BridgeResult * State :=
  match extensionContext st with
  | None => (Throw not_initialized_message, st)
  | Some context =>
      match getBundledCliPath h context with
      | Throw m => (Throw m, st)
      | Ok bundledBin =>
          let bin := binToUse h bundledBin in
          let cm :=
            if existsSync h bundledBin
               && negb (platform h =? "win32")%string
            then (bin, 493) :: chmods st     (* 0o755 *)
            else chmods st in
          let st' :=
            {| extensionContext := extensionContext st;
               spawned := {| spawn_file := bin;
                             spawn_args := args;
                             spawn_timeout := 15000 |} :: spawned st;
               chmods := cm |} in
          (classify bin (execFile h bin args 15000), st')
      end
  end.

(** The four operations of the façade; each catch block logs and rethrows
    the error it caught. *)
Definition parsed {A : Type} (parse : string -> Res A)
  (r : Res BridgeResult * State) : Res A * State :=
  match fst r with
  | Ok out => (parse (stdout out), snd r)
  | Throw m => (Throw m, snd r)
  end.

Definition login (h : Host) (st : State) : Res LoginResult * State :=
  parsed (parseLogin h) (run h st ["login"; "--format"; "json"]).

Definition status (h : Host) (st : State) : Res StatusResult * State :=
  parsed (parseStatus h) (run h st ["status"; "--format"; "json"]).

Definition token (h : Host) (st : State) : Res TokenResult * State :=
  parsed (parseToken h) (run h st ["token"; "--format"; "json"]).

Definition logout (h : Host) (st : State) : Res unit * State :=
  parsed (fun _ => Ok tt) (run h st ["logout"]).

(** *** A child process under [execFile]

    What [node:child_process] documents for [execFile(file, args,
    {timeout}, callback)]: a spawn failure reports the errno; a child
    still running when the timeout expires is sent the kill signal
    ([SIGTERM]) and reported as killed; otherwise the exit code decides.
    In both failure cases after a spawn the message is
    [Command failed: <cmd>] followed by the captured stderr. *)
Record Child : Type := {
  spawn_errno : option string;
  lifetime : option Z;          (* ms until it exits by itself *)
  exit_code : Z;
  child_stdout : string;
  child_stderr : string
}.

Definition command_line (file : string) (args : list string) : string :=
  String.concat " " (file :: args).

Definition outlives (timeout : Z) (c : Child) : bool :=
  (0 <? timeout) &&
  match lifetime c with
  | None => true
  | Some ms => timeout <? ms
  end.

Definition node_execFile (c : Child) (file : string) (args : list string)
  (timeout : Z) : ExecOutcome :=
  match spawn_errno c with
  | Some errno =>
      ExecFail {| err_name := "Error";
                  err_message := "spawn " ++ file ++ " " ++ errno;
                  err_killed := false;
                  err_signal := None;
                  err_code := None |} "" ""
  | None =>
      let failed :=
        "Command failed: " ++ command_line file args
          ++ newline ++ child_stderr c in
      if outlives timeout c then
        ExecFail {| err_name := "Error";
                    err_message := failed;
                    err_killed := true;
                    err_signal := Some "SIGTERM";
                    err_code := None |} (child_stdout c) (child_stderr c)
      else if exit_code c =? 0 then
        ExecDone (child_stdout c) (child_stderr c)
      else
        ExecFail {| err_name := "Error";
                    err_message := failed;
                    err_killed := false;
                    err_signal := None;
                    err_code := Some (exit_code c) |}
                 (child_stdout c) (child_stderr c)
  end.

End Cli.

(** * Timers of the JavaScript runtime

    [setTimeout], [setInterval], [clearTimeout] and [clearInterval] over a
    table of active timers and a virtual clock in milliseconds.  A handle is
    never reused.  A timer fires when the clock reaches its due time, and the
    clock does not move past a timer that is due. *)
Module Timers.
Local Open Scope list_scope.

Record Timer (C : Type) : Type := {
  handle : nat;
  callback : C;
  due : Z;
  repeat : option Z
}.
Arguments handle {C} t.
Arguments callback {C} t.
Arguments due {C} t.
Arguments repeat {C} t.

Definition Table (C : Type) : Type := list (Timer C).

(** A delay below 1 or above 2^31-1 is set to 1. *)
Definition timer_delay (ms : Z) : Z :=
  if (ms <? 1) || (2147483647 <? ms) then 1 else ms.

Definition setTimeout {C : Type} (tbl : Table C) (h : nat) (cb : C)
  (now ms : Z) : Table C :=
  tbl ++ [{| handle := h; callback := cb;
             due := now + timer_delay ms; repeat := None |}].

Definition setInterval {C : Type} (tbl : Table C) (h : nat) (cb : C)
  (now ms : Z) : Table C :=
  tbl ++ [{| handle := h; callback := cb;
             due := now + timer_delay ms;
             repeat := Some (timer_delay ms) |}].

(** [clearTimeout] and [clearInterval] are the same operation. *)
Definition clear {C : Type} (h : nat) (tbl : Table C) : Table C :=
  filter (fun t => negb (Nat.eqb (handle t) h)) tbl.

Definition clear_opt {C : Type} (h : option nat) (tbl : Table C) : Table C :=
  match h with
  | Some h => clear h tbl
  | None => tbl
  end.

Definition lookup {C : Type} (h : nat) (tbl : Table C) : option (Timer C) :=
  find (fun t => Nat.eqb (handle t) h) tbl.

(** The timer with handle [h] may fire now. *)
Definition ready {C : Type} (h : nat) (now : Z) (tbl : Table C)
  : option (Timer C) :=
  match lookup h tbl with
  | Some t => if due t <=? now then Some t else None
  | None => None
  end.

(** The clock may advance by [ms]. *)
Definition may_elapse {C : Type} (now ms : Z) (tbl : Table C) : bool :=
  (0 <=? ms) && forallb (fun t => now + ms <=? due t) tbl.

(** After the callback of an interval timer has run, the timer is armed
    again unless the callback cleared it. *)
Definition rearm {C : Type} (h : nat) (now : Z) (tbl : Table C) : Table C :=
  map (fun t =>
         if Nat.eqb (handle t) h then
           match repeat t with
           | Some ms => {| handle := handle t; callback := callback t;
                           due := now + ms; repeat := repeat t |}
           | None => t
           end
         else t) tbl.

End Timers.

(** * The usage stream supervisor, class [UsageStream] of [src/usageStream.ts] *)
Module UsageStream.
Import Timers.
Local Open Scope list_scope.

Record UsageData : Type := {
  points : JsValue;
  total_points : JsValue;
  context_length : JsValue
}.

(** The object literal [data] built from a status result. *)
Definition usageData_of (statusResult : Cli.StatusResult) : UsageData :=
  {| points := nullish (Cli.points statusResult) (JNumber 0);
     total_points := nullish (Cli.total_points statusResult) (JNumber 0);
     context_length := JString "-" |}.

(** The condition guarding [this.emit('usage', data)]. *)
Definition has_usage_data (data : UsageData) : bool :=
  not_undefined (points data)
  || not_undefined (total_points data)
  || not_undefined (context_length data).

(** The body of [fetchUsageData] from the point where [cli.status()] has
    settled with [r]: how the promise of [fetchUsageData] settles, and the
    "usage" events emitted. *)
Definition fetchUsageData_settled (r : Res Cli.StatusResult)
  : Res unit * list UsageData :=
  match r with
  | Throw m => (Throw m, [])
  | Ok statusResult =>
      if negb (Cli.logged_in statusResult) then (Ok tt, [])
      else
        let data := usageData_of statusResult in
        if has_usage_data data then (Ok tt, [data]) else (Ok tt, [])
  end.

(** The two closures the class hands to the timers. *)
Inductive Callback : Type :=
| PollTick          (* the arrow function given to [setInterval] *)
| Reconnect.        (* the arrow function given to [setTimeout] *)

(** Who awaits a pending [fetchUsageData]. *)
Inductive Awaiter : Type :=
| ByConnect         (* [await this.fetchUsageData()] inside [connect] *)
| ByPollTick        (* [.catch(...)] in the polling callback *)
| ByCaller.         (* a caller outside the class *)

Record Pending : Type := { call_id : nat; awaiter : Awaiter }.

Record State : Type := {
  now : Z;
  timers : Table Callback;
  next_handle : nat;
  pollInterval : option nat;           (* [this.pollInterval] *)
  reconnectTimeout : option nat;       (* [this.reconnectTimeout] *)
  isConnecting : bool;                 (* [this.isConnecting] *)
  pending : list Pending;              (* [cli.status()] calls in flight *)
  status_calls : nat;                  (* bridge invocations so far *)
  emitted : list UsageData;            (* "usage" events, oldest first *)
  fired : nat                          (* timer callbacks run so far *)
}.

Definition initial : State :=
  {| now := 0; timers := []; next_handle := 0;
     pollInterval := None; reconnectTimeout := None;
     isConnecting := false; pending := []; status_calls := 0;
     emitted := []; fired := 0 |}.

Definition setupPolling (s : State) : State :=
  {| now := now s;
     timers := setInterval (clear_opt (pollInterval s) (timers s))
                 (next_handle s) PollTick (now s) 3000;
     next_handle := S (next_handle s);
     pollInterval := Some (next_handle s);
     reconnectTimeout := reconnectTimeout s;
     isConnecting := isConnecting s;
     pending := pending s;
     status_calls := status_calls s;
     emitted := emitted s;
     fired := fired s |}.

Definition scheduleReconnect (s : State) : State :=
  {| now := now s;
     timers := setTimeout (clear_opt (reconnectTimeout s) (timers s))
                 (next_handle s) Reconnect (now s) 5000;
     next_handle := S (next_handle s);
     pollInterval := pollInterval s;
     reconnectTimeout := Some (next_handle s);
     isConnecting := isConnecting s;
     pending := pending s;
     status_calls := status_calls s;
     emitted := emitted s;
     fired := fired s |}.

Definition disconnect (s : State) : State :=
  {| now := now s;
     timers := clear_opt (pollInterval s)
                 (clear_opt (reconnectTimeout s) (timers s));
     next_handle := next_handle s;
     pollInterval := None;
     reconnectTimeout := None;
     isConnecting := isConnecting s;
     pending := pending s;
     status_calls := status_calls s;
     emitted := emitted s;
     fired := fired s |}.

(** [fetchUsageData] up to its [await]: one [cli.status()] call goes out. *)
Definition fetchUsageData (a : Awaiter) (s : State) : State :=
  {| now := now s;
     timers := timers s;
     next_handle := next_handle s;
     pollInterval := pollInterval s;
     reconnectTimeout := reconnectTimeout s;
     isConnecting := isConnecting s;
     pending := pending s
                  ++ [{| call_id := status_calls s; awaiter := a |}];
     status_calls := S (status_calls s);
     emitted := emitted s;
     fired := fired s |}.

Definition set_isConnecting (b : bool) (s : State) : State :=
  {| now := now s;
     timers := timers s;
     next_handle := next_handle s;
     pollInterval := pollInterval s;
     reconnectTimeout := reconnectTimeout s;
     isConnecting := b;
     pending := pending s;
     status_calls := status_calls s;
     emitted := emitted s;
     fired := fired s |}.

(** [connect] up to its [await]. *)
Definition connect (s : State) : State :=
  if isConnecting s then s
  else fetchUsageData ByConnect (set_isConnecting true s).

Definition other_call (c : nat) (p : Pending) : bool :=
  negb (Nat.eqb (call_id p) c).

(** The pending call leaves the list and its events are emitted. *)
Definition received (c : nat) (evs : list UsageData) (s : State) : State :=
  {| now := now s;
     timers := timers s;
     next_handle := next_handle s;
     pollInterval := pollInterval s;
     reconnectTimeout := reconnectTimeout s;
     isConnecting := isConnecting s;
     pending := filter (fun p => negb (Nat.eqb (call_id p) c)) (pending s);
     status_calls := status_calls s;
     emitted := emitted s ++ evs;
     fired := fired s |}.

(** The rest of each awaiter once [fetchUsageData] has settled. *)
Definition resume (a : Awaiter) (outcome : Res unit) (s : State) : State :=
  match a with
  | ByConnect =>
      set_isConnecting false
        match outcome with
        | Ok _ => setupPolling s
        | Throw _ => scheduleReconnect s
        end
  | ByPollTick =>
      match outcome with
      | Ok _ => s
      | Throw _ => scheduleReconnect s
      end
  | ByCaller => s
  end.

Definition settle (p : Pending) (r : Res Cli.StatusResult) (s : State)
  : State :=
  let (outcome, evs) := fetchUsageData_settled r in
  resume (awaiter p) outcome (received (call_id p) evs s).

Definition in_callback (tbl : Table Callback) (s : State) : State :=
  {| now := now s;
     timers := tbl;
     next_handle := next_handle s;
     pollInterval := pollInterval s;
     reconnectTimeout := reconnectTimeout s;
     isConnecting := isConnecting s;
     pending := pending s;
     status_calls := status_calls s;
     emitted := emitted s;
     fired := S (fired s) |}.

(** Timer [t] fires: a timeout leaves the table before its callback runs,
    an interval is armed again after it. *)
Definition fire (t : Timer Callback) (s : State) : State :=
  match callback t with
  | PollTick =>
      let s1 := fetchUsageData ByPollTick (in_callback (timers s) s) in
      {| now := now s1;
         timers := rearm (handle t) (now s1) (timers s1);
         next_handle := next_handle s1;
         pollInterval := pollInterval s1;
         reconnectTimeout := reconnectTimeout s1;
         isConnecting := isConnecting s1;
         pending := pending s1;
         status_calls := status_calls s1;
         emitted := emitted s1;
         fired := fired s1 |}
  | Reconnect =>
      connect (in_callback (clear (handle t) (timers s)) s)
  end.

Definition elapse (ms : Z) (s : State) : State :=
  {| now := now s + ms;
     timers := timers s;
     next_handle := next_handle s;
     pollInterval := pollInterval s;
     reconnectTimeout := reconnectTimeout s;
     isConnecting := isConnecting s;
     pending := pending s;
     status_calls := status_calls s;
     emitted := emitted s;
     fired := fired s |}.

(** The macrotasks of the event loop. *)
Inductive Event : Type :=
| CallConnect
| CallDisconnect
| CallFetchUsageData
| Elapse (ms : Z)
| Fire (h : nat)
| Settle (call : nat) (r : Res Cli.StatusResult).

Definition step (s : State) (e : Event) : option State :=
  match e with
  | CallConnect => Some (connect s)
  | CallDisconnect => Some (disconnect s)
  | CallFetchUsageData => Some (fetchUsageData ByCaller s)
  | Elapse ms =>
      if may_elapse (now s) ms (timers s) then Some (elapse ms s) else None
  | Fire h =>
      match ready h (now s) (timers s) with
      | Some t => Some (fire t s)
      | None => None
      end
  | Settle c r =>
      match find (fun p => Nat.eqb (call_id p) c) (pending s) with
      | Some p => Some (settle p r s)
      | None => None
      end
  end.

Fixpoint run (s : State) (tr : list Event) : option State :=
  match tr with
  | [] => Some s
  | e :: tr' =>
      match step s e with
      | Some s' => run s' tr'
      | None => None
      end
  end.

(** Events that are not calls from outside the class. *)
Definition internal (e : Event) : bool :=
  match e with
  | Elapse _ | Fire _ | Settle _ _ => true
  | _ => false
  end.

Definition is_poll (t : Timer Callback) : bool :=
  match callback t with PollTick => true | Reconnect => false end.

Definition is_reconnect (t : Timer Callback) : bool :=
  match callback t with Reconnect => true | PollTick => false end.

(** A pending call whose awaiter arms a timer when it resumes. *)
Definition rearming (p : Pending) : bool :=
  match awaiter p with
  | ByConnect | ByPollTick => true
  | ByCaller => false
  end.

End UsageStream.

(** * The login poller, command handler [costa.login] of [src/index.ts] *)
Module LoginPoller.
Import Timers.
Local Open Scope list_scope.

Inductive Callback : Type :=
| PollTick          (* the async arrow function given to [setInterval] *)
| TimedOut.         (* the arrow function given to [setTimeout] *)

Record State : Type := {
  now : Z;
  timers : Table Callback;
  pollInterval : nat;                  (* [const pollInterval] *)
  pending : list nat;                  (* [cli.status()] calls in flight *)
  status_calls : nat;                  (* bridge invocations so far *)
  successes : nat;                     (* 'Successfully logged in to Costa' *)
  connects : nat;                      (* [usageStream.connect()] calls *)
  timeouts : nat                       (* 'Login polling timed out' *)
}.

(** [loginResult.timeout_seconds ?? 600] *)
Definition timeoutSeconds (timeout_seconds : option Z) : Z :=
  match timeout_seconds with
  | Some n => n
  | None => 600
  end.

(** The two timers are armed one after the other in the same task; the
    clock of the poller starts there. *)
Definition start (timeout_seconds : option Z) : State :=
  {| now := 0;
     timers :=
       setTimeout (setInterval [] 0%nat PollTick 0 3000)
         1%nat TimedOut 0 (timeoutSeconds timeout_seconds * 1000);
     pollInterval := 0%nat;
     pending := [];
     status_calls := 0;
     successes := 0;
     connects := 0;
     timeouts := 0 |}.

(** The handler from the point where [cli.login()] has resolved.  With a
    non-empty [auth_url] it awaits [env.openExternal(Uri.parse(auth_url))],
    whose outcome is [opened], and arms the timers only when that has
    resolved (the boolean it resolves with is not looked at); a throw or a
    rejection there goes to the [catch] of the handler.  Without an
    [auth_url] it shows an error.  In both of these cases no poller
    starts. *)
Definition login_resolved (loginResult : Cli.LoginResult)
  (opened : Res bool) : option State :=
  match Cli.auth_url loginResult with
  | Some url =>
      if truthy url then
        match opened with
        | Ok _ => Some (start (Cli.timeout_seconds loginResult))
        | Throw _ => None
        end
      else None
  | None => None
  end.

(** The polling callback up to its [await]. *)
Definition poll (s : State) : State :=
  {| now := now s;
     timers := rearm (pollInterval s) (now s) (timers s);
     pollInterval := pollInterval s;
     pending := pending s ++ [status_calls s];
     status_calls := S (status_calls s);
     successes := successes s;
     connects := connects s;
     timeouts := timeouts s |}.

(** The timeout callback. *)
Definition timed_out (h : nat) (s : State) : State :=
  {| now := now s;
     timers := clear (pollInterval s) (clear h (timers s));
     pollInterval := pollInterval s;
     pending := pending s;
     status_calls := status_calls s;
     successes := successes s;
     connects := connects s;
     timeouts := S (timeouts s) |}.

Definition fire (t : Timer Callback) (s : State) : State :=
  match callback t with
  | PollTick => poll s
  | TimedOut => timed_out (handle t) s
  end.

(** The polling callback after its [await]. *)
Definition settle (c : nat) (r : Res Cli.StatusResult) (s : State) : State :=
  let rest := filter (fun c' => negb (Nat.eqb c' c)) (pending s) in
  match r with
  | Ok statusResult =>
      if Cli.logged_in statusResult then
        {| now := now s;
           timers := clear (pollInterval s) (timers s);
           pollInterval := pollInterval s;
           pending := rest;
           status_calls := status_calls s;
           successes := S (successes s);
           connects := S (connects s);
           timeouts := timeouts s |}
      else
        {| now := now s; timers := timers s;
           pollInterval := pollInterval s; pending := rest;
           status_calls := status_calls s; successes := successes s;
           connects := connects s; timeouts := timeouts s |}
  | Throw _ =>
      {| now := now s; timers := timers s;
         pollInterval := pollInterval s; pending := rest;
         status_calls := status_calls s; successes := successes s;
         connects := connects s; timeouts := timeouts s |}
  end.

Definition elapse (ms : Z) (s : State) : State :=
  {| now := now s + ms; timers := timers s;
     pollInterval := pollInterval s; pending := pending s;
     status_calls := status_calls s; successes := successes s;
     connects := connects s; timeouts := timeouts s |}.

Inductive Event : Type :=
| Elapse (ms : Z)
| Fire (h : nat)
| Settle (call : nat) (r : Res Cli.StatusResult).

Definition step (s : State) (e : Event) : option State :=
  match e with
  | Elapse ms =>
      if may_elapse (now s) ms (timers s) then Some (elapse ms s) else None
  | Fire h =>
      match ready h (now s) (timers s) with
      | Some t => Some (fire t s)
      | None => None
      end
  | Settle c r =>
      if existsb (Nat.eqb c) (pending s) then Some (settle c r s) else None
  end.

Fixpoint run (s : State) (tr : list Event) : option State :=
  match tr with
  | [] => Some s
  | e :: tr' =>
      match step s e with
      | Some s' => run s' tr'
      | None => None
      end
  end.

Definition is_poll (t : Timer Callback) : bool :=
  match callback t with PollTick => true | TimedOut => false end.

Definition is_timeout (t : Timer Callback) : bool :=
  match callback t with TimedOut => true | PollTick => false end.

End LoginPoller.


(** * Invariants of the usage stream supervisor *)
Module UsageInv.
Import Timers UsageStream.

Definition by_connect (p : Pending) : bool :=
  match awaiter p with ByConnect => true | _ => false end.

(** Every active timer is the one its field of the object refers to, handles
    are distinct and older than the next one, and no timer is overdue. *)
Record TimersInv (s : State) : Prop := {
  ti_poll : forall t, In t (timers s) -> is_poll t = true ->
            pollInterval s = Some (handle t) /\ repeat t = Some 3000;
  ti_reconnect : forall t, In t (timers s) -> is_reconnect t = true ->
            reconnectTimeout s = Some (handle t) /\ repeat t = None;
  ti_nodup : NoDup (map handle (timers s));
  ti_fresh : forall t, In t (timers s) -> (handle t < next_handle s)%nat;
  ti_due : forall t, In t (timers s) -> now s <= due t
}.

(** Pending calls have distinct identifiers, and [isConnecting] is set
    exactly while the call of a [connect] is pending. *)
Record CallsInv (s : State) : Prop := {
  ci_nodup : NoDup (map call_id (pending s));
  ci_fresh : forall p, In p (pending s) -> (call_id p < status_calls s)%nat;
  ci_connecting : List.length (filter by_connect (pending s))
                  = if isConnecting s then 1%nat else 0%nat
}.

(** After a [disconnect] with no re-arming call in flight: no timer, and
    only calls of outside callers pending. *)
Definition quiescent (s : State) : Prop :=
  timers s = [] /\ forall p, In p (pending s) -> rearming p = false.

End UsageInv.

(** * Invariants of the login poller *)
Module LoginInv.
Import Timers LoginPoller.

(** The timer [setTimeout] arms in [start]. *)
Definition timeout_timer (timeout_seconds : option Z) : Timer Callback :=
  {| handle := 1%nat; callback := TimedOut;
     due := timer_delay (timeoutSeconds timeout_seconds * 1000);
     repeat := None |}.

Record Inv (timeout_seconds : option Z) (s : State) : Prop := {
  li_handle : pollInterval s = 0%nat;
  li_poll : forall t, In t (timers s) -> is_poll t = true ->
            handle t = 0%nat /\ repeat t = Some 3000
            /\ due t = 3000 * (Z.of_nat (status_calls s) + 1);
  li_timeout : forall t, In t (timers s) -> is_timeout t = true ->
            t = timeout_timer timeout_seconds;
  li_nodup : NoDup (map handle (timers s));
  li_due : forall t, In t (timers s) -> now s <= due t;
  li_armed : timeouts s = 0%nat -> In (timeout_timer timeout_seconds) (timers s);
  li_fired : timeouts s <> 0%nat ->
            timeouts s = 1%nat /\ timers s = []
            /\ due (timeout_timer timeout_seconds) <= now s;
  li_success : successes s <> 0%nat ->
            forall t, In t (timers s) -> is_poll t = false;
  li_connects : connects s = successes s
}.

(** The poller has stopped polling. *)
Definition stopped (s : State) : Prop :=
  forall t, In t (timers s) -> is_poll t = false.

(** The interval timer after [calls] polls. *)
Definition poll_timer (calls : nat) : Timer Callback :=
  {| handle := 0%nat; callback := PollTick;
     due := 3000 * (Z.of_nat calls + 1); repeat := Some 3000 |}.

(** A status call settling with [logged_in] true. *)
Definition logged_in_response (e : Event) : bool :=
  match e with
  | Settle _ (Ok statusResult) => Cli.logged_in statusResult
  | _ => false
  end.

End LoginInv.

(** * Sample hosts and inputs for the examples *)
Module Sample.
Import Cli.

Definition context : ExtensionContext :=
  {| extensionPath := Some "/ext"; extensionUri := None |}.

(** A host on which every [execFile] starts the child [c]. *)
Definition host (os cpu : string) (bundled : bool) (c : Child) : Host :=
  {| platform := os;
     arch := cpu;
     existsSync := fun _ => bundled;
     execFile := node_execFile c;
     parseLogin := fun _ => Throw "Unexpected end of JSON input";
     parseStatus := fun _ => Throw "Unexpected end of JSON input";
     parseToken := fun _ => Throw "Unexpected end of JSON input" |}.

(** No such file. *)
Definition missing : Child :=
  {| spawn_errno := Some "ENOENT"; lifetime := Some 0; exit_code := 0;
     child_stdout := ""; child_stderr := "" |}.


(** Exits with code 1 after ten milliseconds. *)
Definition failing : Child :=
  {| spawn_errno := None; lifetime := Some 10; exit_code := 1;
     child_stdout := ""; child_stderr := "" |}.

Definition status_args : list string := ["status"; "--format"; "json"].

(** Found and started, exits with code 2 after complaining about a file. *)
Definition complaining : Child :=
  {| spawn_errno := None; lifetime := Some 10; exit_code := 2;
     child_stdout := "";
     child_stderr := "open config: ENOENT: no such file or directory" |}.

(** Exits with code 1 having written only white space to stderr: a
    no-break space, a line feed and a line separator. *)
Definition muttering : Child :=
  {| spawn_errno := None; lifetime := Some 10; exit_code := 1;
     child_stdout := "";
     child_stderr := bytes [194; 160; 10; 226; 128; 168]%nat |}.

(** The state a trace of the usage stream leads to. *)
Definition usage_after (tr : list UsageStream.Event) : UsageStream.State :=
  match UsageStream.run UsageStream.initial tr with
  | Some s => s
  | None => UsageStream.initial
  end.

(** The state a trace of the login poller leads to. *)
Definition login_after (timeout_seconds : option Z)
  (tr : list LoginPoller.Event) : LoginPoller.State :=
  match LoginPoller.run (LoginPoller.start timeout_seconds) tr with
  | Some s => s
  | None => LoginPoller.start timeout_seconds
  end.

Definition logged_out : Res StatusResult :=
  Ok {| logged_in := false; points := JUndefined;
        total_points := JUndefined |}.

Definition logged_in_with (p t : JsValue) : Res StatusResult :=
  Ok {| logged_in := true; points := p; total_points := t |}.

(** Connected, then two poll ticks in a row fail. *)
Definition two_poll_failures : list UsageStream.Event :=
  [UsageStream.CallConnect;
   UsageStream.Settle 0 (logged_in_with (JNumber 5) (JString "∞"));
   UsageStream.Elapse 3000; UsageStream.Fire 0;
   UsageStream.Settle 1 (Throw "Error: Command failed");
   UsageStream.Elapse 3000; UsageStream.Fire 0;
   UsageStream.Settle 2 (Throw "Error: Command failed")].

(** Logged in with both fields null, then a manual refresh that finds the
    fields absent. *)
Definition null_points : list UsageStream.Event :=
  [UsageStream.CallConnect;
   UsageStream.Settle 0 (logged_in_with JNull JNull);
   UsageStream.CallFetchUsageData;
   UsageStream.Settle 1 (logged_in_with JUndefined JUndefined)].


(** Connected, then one poll tick whose call is still pending. *)
Definition one_poll_pending : list UsageStream.Event :=
  [UsageStream.CallConnect;
   UsageStream.Settle 0 (logged_in_with (JNumber 5) (JString "∞"));
   UsageStream.Elapse 3000; UsageStream.Fire 0].

(** A manual refresh that fails, a disconnect, and ten seconds. *)
Definition refresh_fails : list UsageStream.Event :=
  [UsageStream.CallFetchUsageData;
   UsageStream.Settle 0 (Throw "Error: Command failed");
   UsageStream.CallDisconnect; UsageStream.Elapse 10000].

(** Connected, then the first poll tick fails. *)
Definition connected_and_polling : list UsageStream.Event :=
  [UsageStream.CallConnect;
   UsageStream.Settle 0 (logged_in_with (JNumber 5) (JString "∞"));
   UsageStream.Elapse 3000; UsageStream.Fire 0;
   UsageStream.Settle 1 (Throw "Error: Command failed")].

(** The third poll, at nine seconds, reports the login. *)
Definition logs_in_at_third_poll : list LoginPoller.Event :=
  [LoginPoller.Elapse 3000; LoginPoller.Fire 0;
   LoginPoller.Settle 0 logged_out;
   LoginPoller.Elapse 3000; LoginPoller.Fire 0;
   LoginPoller.Settle 1 logged_out;
   LoginPoller.Elapse 3000; LoginPoller.Fire 0;
   LoginPoller.Settle 2 (logged_in_with (JNumber 5) (JString "∞"))].

(** Two polls in flight at once, both answered with the login. *)
Definition two_logins_in_flight : list LoginPoller.Event :=
  [LoginPoller.Elapse 3000; LoginPoller.Fire 0;
   LoginPoller.Elapse 3000; LoginPoller.Fire 0;
   LoginPoller.Settle 0 (logged_in_with (JNumber 5) (JString "∞"));
   LoginPoller.Settle 1 (logged_in_with (JNumber 5) (JString "∞"))].

(** Three polls, none logged in; the timeout fires at nine seconds. *)
Definition never_logs_in : list LoginPoller.Event :=
  [LoginPoller.Elapse 3000; LoginPoller.Fire 0;
   LoginPoller.Settle 0 logged_out;
   LoginPoller.Elapse 3000; LoginPoller.Fire 0;
   LoginPoller.Settle 1 logged_out;
   LoginPoller.Elapse 3000; LoginPoller.Fire 0; LoginPoller.Fire 1;
   LoginPoller.Settle 2 logged_out].

End Sample.

(** * Callers of the façade: sequences of operations *)
Module Facade.
Import Cli.
Local Open Scope list_scope.

Inductive Op : Type := OpLogin | OpStatus | OpToken | OpLogout.

(** The argument vector each operation hands to [run]. *)
Definition op_args (o : Op) : list string :=
  match o with
  | OpLogin => ["login"; "--format"; "json"]
  | OpStatus => ["status"; "--format"; "json"]
  | OpToken => ["token"; "--format"; "json"]
  | OpLogout => ["logout"]
  end.

(** The state of the module after one operation has settled. *)
Definition perform (h : Host) (st : State) (o : Op) : State :=
  match o with
  | OpLogin => snd (login h st)
  | OpStatus => snd (status h st)
  | OpToken => snd (token h st)
  | OpLogout => snd (logout h st)
  end.

(** Whether the operation rejected, and with which message. *)
Definition rejection (h : Host) (st : State) (o : Op) : option string :=
  match o with
  | OpLogin => match fst (login h st) with Throw m => Some m | Ok _ => None end
  | OpStatus =>
      match fst (status h st) with Throw m => Some m | Ok _ => None end
  | OpToken => match fst (token h st) with Throw m => Some m | Ok _ => None end
  | OpLogout =>
      match fst (logout h st) with Throw m => Some m | Ok _ => None end
  end.

Definition perform_all (h : Host) (st : State) (ops : list Op) : State :=
  fold_left (perform h) ops st.

Definition spawn_of (bin : string) (o : Op) : Spawn :=
  {| spawn_file := bin; spawn_args := op_args o; spawn_timeout := 15000 |}.

End Facade.

(** * The older command module, [src/index.ts] with its own runner *)
Module Index.
Import Cli.
Local Open Scope list_scope.

(** [getBundledCliPath] of the older [index.ts]: no ARM64 case. *)
Definition getBundledCliPath (h : Host) (context : ExtensionContext)
  : Res string :=
  match extRoot_of context with
  | None => Throw "extension root path not available"
  | Some extRoot =>
      if negb (truthy extRoot) then
        Throw "extension root path not available"
      else if (platform h =? "darwin")%string then
        Ok (path_join h [extRoot; "res"; "bin"; "darwin-universal"; "costa"])
      else if (platform h =? "win32")%string then
        Ok (path_join h [extRoot; "res"; "bin"; "win32-x64"; "costa.exe"])
      else
        Ok (path_join h [extRoot; "res"; "bin"; "linux-x64"; "costa"])
  end.

(** [runBundledCli(context, args)]; the effects are logged in the same
    record as those of [Cli.run]. *)
Definition runBundledCli (h : Host) (st : State) (context : ExtensionContext)
  (args : list string) : Res BridgeResult * State :=
  match getBundledCliPath h context with
  | Throw m => (Throw m, st)
  | Ok bin =>
      if negb (existsSync h bin) then
        (Throw ("costa CLI not found at " ++ bin)%string, st)
      else
        let cm :=
          if negb (platform h =? "win32")%string
          then (bin, 493) :: chmods st
          else chmods st in
        let st' :=
          {| extensionContext := extensionContext st;
             spawned := {| spawn_file := bin;
                           spawn_args := args;
                           spawn_timeout := 15000 |} :: spawned st;
             chmods := cm |} in
        (match execFile h bin args 15000 with
         | ExecFail err _ stderr =>
             let msg := trim stderr in
             Throw (if truthy msg
                    then (String_of_error err ++ newline ++ msg)%string
                    else String_of_error err)
         | ExecDone stdout stderr =>
             Ok {| stdout := stdout; stderr := stderr |}
         end, st')
  end.

(** [expectedBundledBinaryPath] of the test file, with [process.cwd()] as
    the root. *)
Definition expectedBundledBinaryPath (h : Host) (cwd : string) : string :=
  if (platform h =? "darwin")%string then
    path_join h [cwd; "res"; "bin"; "darwin-universal"; "costa"]
  else if (platform h =? "win32")%string then
    path_join h [cwd; "res"; "bin"; "win32-x64"; "costa.exe"]
  else if (arch h =? "arm64")%string then
    path_join h [cwd; "res"; "bin"; "linux-arm64"; "costa"]
  else
    path_join h [cwd; "res"; "bin"; "linux-x64"; "costa"].

End Index.

(** * Further invariants and runs of the usage stream supervisor *)
Module UsageRuns.
Import Timers UsageStream.
Local Open Scope list_scope.

(** The handles kept in the object are older than the next handle, and the
    two fields never hold the same one. *)
Record HandlesInv (s : State) : Prop := {
  hi_poll : forall a, pollInterval s = Some a -> (a < next_handle s)%nat;
  hi_reconnect : forall b, reconnectTimeout s = Some b ->
                 (b < next_handle s)%nat;
  hi_distinct : forall a b, pollInterval s = Some a ->
                reconnectTimeout s = Some b -> a <> b
}.

(** No timer lies further ahead than the delay it was armed with. *)
Definition within_delay (s : State) : Prop :=
  forall t, In t (timers s) ->
    (is_poll t = true -> due t <= now s + 3000)
    /\ (is_reconnect t = true -> due t <= now s + 5000).

(** What the listeners of "usage" have been handed. *)
Definition well_formed (d : UsageData) : Prop :=
  context_length d = JString "-"
  /\ points d <> JUndefined /\ points d <> JNull
  /\ total_points d <> JUndefined /\ total_points d <> JNull.

(** A first connection that resolves at time 0. *)
Definition connected (statusResult : Cli.StatusResult) : list Event :=
  [CallConnect; Settle 0 (Ok statusResult)].

(** One poll tick, three seconds on, whose status call is rejected at
    once; [c] is the identifier the call gets. *)
Definition failing_poll (c : nat) (m : string) : list Event :=
  [Elapse 3000; Fire 0; Settle c (Throw m)].

(** [n] such ticks in a row, the first call being number [c]. *)
Fixpoint failing_polls (c n : nat) (m : string) : list Event :=
  match n with
  | O => []
  | S n' => failing_poll c m ++ failing_polls (S c) n' m
  end.

(** The state after the connection and [k + 1] failing ticks. *)
Definition starved (statusResult : Cli.StatusResult) (k : nat) : State :=
  {| now := 3000 * (Z.of_nat k + 1);
     timers :=
       [{| handle := 0%nat; callback := PollTick;
           due := 3000 * (Z.of_nat k + 2); repeat := Some 3000 |};
        {| handle := S k; callback := Reconnect;
           due := 3000 * (Z.of_nat k + 1) + 5000; repeat := None |}];
     next_handle := S (S k);
     pollInterval := Some 0%nat;
     reconnectTimeout := Some (S k);
     isConnecting := false;
     pending := [];
     status_calls := S (S k);
     emitted := snd (fetchUsageData_settled (Ok statusResult));
     fired := S k |}.

(** One poll tick, three seconds on, whose status call stays pending. *)
Definition unanswered_poll : list Event := [Elapse 3000; Fire 0].

Fixpoint unanswered_polls (n : nat) : list Event :=
  match n with
  | O => []
  | S n' => unanswered_poll ++ unanswered_polls n'
  end.

(** The state after the connection and [n] unanswered ticks. *)
Definition piled_up (statusResult : Cli.StatusResult) (n : nat) : State :=
  {| now := 3000 * Z.of_nat n;
     timers :=
       [{| handle := 0%nat; callback := PollTick;
           due := 3000 * (Z.of_nat n + 1); repeat := Some 3000 |}];
     next_handle := 1%nat;
     pollInterval := Some 0%nat;
     reconnectTimeout := None;
     isConnecting := false;
     pending := map (fun c => {| call_id := c; awaiter := ByPollTick |})
                  (seq 1 n);
     status_calls := S n;
     emitted := snd (fetchUsageData_settled (Ok statusResult));
     fired := n |}.

End UsageRuns.

(** * One [execFile] call under its timeout, as the runtime carries it out

    What [node:child_process] does for [execFile(file, args, {timeout},
    callback)] once the child has been spawned: a timer is armed for the
    timeout; if it fires while the child is running, the kill signal
    ([SIGTERM]) is sent; the callback is called when the child has closed,
    and then the timer is cleared.  A child that dies of the signal closes
    at once; one that survives it closes when it exits by itself.  The call
    made by [run] settles when the callback is called. *)
Module Exec.
Import Cli.
Local Open Scope list_scope.

(** What the kill signal does to the child. *)
Inductive Disposition : Type := Dies | Survives.

Definition dies (d : Disposition) : bool :=
  match d with Dies => true | Survives => false end.

Record Job : Type := {
  child : Child;
  disposition : Disposition;
  file : string;
  args : list string;
  timeout : Z
}.

Record Call : Type := {
  clock : Z;                     (* ms since [execFile] was called *)
  alive : bool;                  (* the child process exists *)
  killed : bool;                 (* the timeout has sent the kill signal *)
  kill_timer : option Z;         (* due time of the timeout, while armed *)
  outcome : option ExecOutcome   (* what the callback was called with *)
}.

Definition failed_message (j : Job) : string :=
  ("Command failed: " ++ command_line (file j) (args j)
     ++ newline ++ child_stderr (child j))%string.

(** The callback's arguments when the spawn itself fails. *)
Definition spawn_failed (j : Job) (errno : string) : ExecOutcome :=
  ExecFail {| err_name := "Error";
              err_message := ("spawn " ++ file j ++ " " ++ errno)%string;
              err_killed := false;
              err_signal := None;
              err_code := None |} "" "".

(** The callback's arguments when the child has closed: killed by the
    signal, or exited with its own code. *)
Definition exit_report (j : Job) (was_killed by_signal : bool) : ExecOutcome :=
  if by_signal then
    ExecFail {| err_name := "Error";
                err_message := failed_message j;
                err_killed := true;
                err_signal := Some "SIGTERM";
                err_code := None |}
             (child_stdout (child j)) (child_stderr (child j))
  else if exit_code (child j) =? 0 then
    ExecDone (child_stdout (child j)) (child_stderr (child j))
  else
    ExecFail {| err_name := "Error";
                err_message := failed_message j;
                err_killed := was_killed;
                err_signal := None;
                err_code := Some (exit_code (child j)) |}
             (child_stdout (child j)) (child_stderr (child j)).

Definition start (j : Job) : Call :=
  match spawn_errno (child j) with
  | Some errno =>
      {| clock := 0; alive := false; killed := false; kill_timer := None;
         outcome := Some (spawn_failed j errno) |}
  | None =>
      {| clock := 0; alive := true; killed := false;
         kill_timer := if 0 <? timeout j then Some (timeout j) else None;
         outcome := None |}
  end.

Definition closed (s : Call) (o : ExecOutcome) : Call :=
  {| clock := clock s; alive := false; killed := killed s;
     kill_timer := None; outcome := Some o |}.

(** The child is due to exit by itself. *)
Definition exit_due (j : Job) (s : Call) : bool :=
  match lifetime (child j) with
  | Some ms => ms <=? clock s
  | None => false
  end.

(** The clock may advance by [ms]: not past the timeout while it is armed,
    not past the exit of a running child, and not at all while a child that
    dies of the signal has it pending. *)
Definition may_pass (j : Job) (s : Call) (ms : Z) : bool :=
  (0 <=? ms)
  && match kill_timer s with
     | Some t => clock s + ms <=? t
     | None => true
     end
  && (negb (alive s)
      || (match lifetime (child j) with
          | Some l => clock s + ms <=? l
          | None => true
          end
          && (negb (killed s && dies (disposition j)) || (ms <=? 0)))).

Inductive Event : Type :=
| Elapse (ms : Z)
| Timeout            (* the timeout timer fires *)
| Exit.              (* the child closes *)

Definition step (j : Job) (s : Call) (e : Event) : option Call :=
  match e with
  | Elapse ms =>
      if may_pass j s ms then
        Some {| clock := clock s + ms; alive := alive s; killed := killed s;
                kill_timer := kill_timer s; outcome := outcome s |}
      else None
  | Timeout =>
      match kill_timer s with
      | Some t =>
          if t <=? clock s then
            Some {| clock := clock s; alive := alive s; killed := true;
                    kill_timer := None; outcome := outcome s |}
          else None
      | None => None
      end
  | Exit =>
      if alive s then
        if exit_due j s then Some (closed s (exit_report j (killed s) false))
        else if killed s && dies (disposition j)
        then Some (closed s (exit_report j true true))
        else None
      else None
  end.

Fixpoint run (j : Job) (s : Call) (tr : list Event) : option Call :=
  match tr with
  | [] => Some s
  | e :: tr' =>
      match step j s e with
      | Some s' => run j s' tr'
      | None => None
      end
  end.

(** What holds of every state of a call. *)
Record Inv (j : Job) (s : Call) : Prop := {
  ei_pending : alive s = true -> outcome s = None;
  ei_returned : alive s = false -> outcome s <> None;
  ei_timer : forall t, kill_timer s = Some t ->
             alive s = true /\ killed s = false;
  ei_armed : alive s = true -> killed s = false ->
             kill_timer s = (if 0 <? timeout j then Some (timeout j) else None)
             /\ ((0 <? timeout j) = true -> clock s <= timeout j);
  ei_killed : killed s = true ->
             timeout j <= clock s /\ (0 <? timeout j) = true;
  ei_dying : alive s = true -> killed s = true ->
             dies (disposition j) = true -> clock s <= timeout j;
  ei_report : dies (disposition j) = true ->
             spawn_errno (child j) = None ->
             outlives (timeout j) (child j) = true ->
             forall o, outcome s = Some o ->
             o = exit_report j true true /\ killed s = true
}.


End Exec.

(** * Properties of the process bridge *)
Section CliFacts.
Import Cli.

Lemma endsWith_cons (c : ascii) (s suffix : string) :
  endsWith (String c s) suffix
    = if (String c s =? suffix)%string then true else endsWith s suffix.
Proof. reflexivity. Qed.

Lemma endsWith_app_true (a b suffix : string) :
  endsWith b suffix = true -> endsWith (a ++ b) suffix = true.
Proof.
  intros Hb. induction a as [|c a IH]; [exact Hb|].
  change (String c a ++ b) with (String c (a ++ b)).
  rewrite endsWith_cons, IH.
  now destruct (String.eqb (String c (a ++ b)) suffix).
Qed.

Lemma eqb_length_neq (a b : string) :
  String.length a <> String.length b -> (a =? b)%string = false.
Proof.
  intros Hlen. destruct (String.eqb_spec a b) as [->|]; congruence.
Qed.

Lemma length_append (a b : string) :
  String.length (a ++ b) = (String.length a + String.length b)%nat.
Proof. induction a; simpl; congruence. Qed.

Lemma endsWith_app_false (a b suffix : string) :
  (String.length suffix <= String.length b)%nat ->
  endsWith b suffix = false -> endsWith (a ++ b) suffix = false.
Proof.
  intros Hlen Hb. induction a as [|c a IH]; [exact Hb|].
  change (String c a ++ b) with (String c (a ++ b)).
  rewrite endsWith_cons, IH, eqb_length_neq; [reflexivity|].
  simpl. rewrite length_append. lia.
Qed.

Lemma getBundledCliPath_table (h : Host) (context : ExtensionContext)
  (root : string) :
  extRoot_of context = Some root -> truthy root = true ->
  getBundledCliPath h context =
    Ok (path_join h
          (root :: "res" :: "bin" ::
             if (platform h =? "darwin")%string
             then ["darwin-universal"; "costa"]
             else if (platform h =? "win32")%string
             then ["win32-x64"; "costa.exe"]
             else if (arch h =? "arm64")%string
             then ["linux-arm64"; "costa"]
             else ["linux-x64"; "costa"])).
Proof.
  intros Hroot Htruthy. unfold getBundledCliPath.
  rewrite Hroot, Htruthy. simpl.
  destruct (platform h =? "darwin")%string; [reflexivity|].
  destruct (platform h =? "win32")%string; [reflexivity|].
  destruct (arch h =? "arm64")%string; reflexivity.
Qed.

Lemma run_spawns (h : Host) (st : State) (context : ExtensionContext)
  (bundledBin : string) (args : list string) :
  extensionContext st = Some context ->
  getBundledCliPath h context = Ok bundledBin ->
  fst (run h st args)
    = classify (binToUse h bundledBin)
        (execFile h (binToUse h bundledBin) args 15000)
  /\ spawned (snd (run h st args))
     = {| spawn_file := binToUse h bundledBin;
          spawn_args := args;
          spawn_timeout := 15000 |} :: spawned st.
Proof.
  intros Hctx Hpath. unfold run. rewrite Hctx, Hpath. split; reflexivity.
Qed.

Lemma append_assoc (a b c : string) : (a ++ b) ++ c = a ++ (b ++ c).
Proof. induction a; simpl; congruence. Qed.

Lemma path_join_5 (h : Host) (a b c d e : string) :
  path_join h [a; b; c; d; e]
    = a ++ (path_sep h ++ b ++ path_sep h ++ c)
        ++ (path_sep h ++ d ++ path_sep h ++ e).
Proof.
  unfold path_join. cbn [String.concat].
  now rewrite <- !append_assoc.
Qed.

(** C6. Binary resolution depends on the platform and the architecture
    only (and on the extension root it prefixes): it returns the root
    joined with [res], [bin] and the subdirectory and binary name of the
    platform, [darwin-universal/costa] on macOS, [win32-x64/costa.exe] on
    Windows, [linux-arm64/costa] on ARM64 otherwise and [linux-x64/costa]
    in every other case; the path ends in [.exe] on Windows only; and when
    [existsSync] denies the bundled path, [run] spawns the bare name
    [costa], left to the search path. *)
Theorem binary_resolution (h : Host) (context : ExtensionContext)
  (root : string) :
  extRoot_of context = Some root -> truthy root = true ->
  exists subdir name : string,
    (subdir, name)
      = (if (platform h =? "darwin")%string
         then ("darwin-universal", "costa")
         else if (platform h =? "win32")%string
         then ("win32-x64", "costa.exe")
         else if (arch h =? "arm64")%string
         then ("linux-arm64", "costa")
         else ("linux-x64", "costa"))
    /\ let bundledBin := path_join h [root; "res"; "bin"; subdir; name] in
       getBundledCliPath h context = Ok bundledBin
       /\ endsWith bundledBin (path_sep h ++ subdir ++ path_sep h ++ name)
          = true
       /\ (endsWith bundledBin ".exe" = true <-> platform h = "win32")
       /\ (forall h' : Host,
              platform h' = platform h -> arch h' = arch h ->
              getBundledCliPath h' context = getBundledCliPath h context)
       /\ (forall (st : State) (args : list string),
              extensionContext st = Some context ->
              existsSync h bundledBin = false ->
              spawned (snd (run h st args))
                = {| spawn_file := "costa"; spawn_args := args;
                     spawn_timeout := 15000 |} :: spawned st)
       /\ (forall (st : State) (args : list string),
              extensionContext st = Some context ->
              existsSync h bundledBin = true ->
              spawned (snd (run h st args))
                = {| spawn_file := bundledBin; spawn_args := args;
                     spawn_timeout := 15000 |} :: spawned st).
Proof.
  intros Hroot Htruthy.
  pose proof (getBundledCliPath_table h context root Hroot Htruthy) as Htab.
  assert (Hpure : forall h' : Host,
             platform h' = platform h -> arch h' = arch h ->
             getBundledCliPath h' context = getBundledCliPath h context).
  { intros h' Hp Ha. unfold getBundledCliPath, path_join, path_sep.
    now rewrite Hp, Ha. }
  assert (Hrun : forall bundledBin : string,
             getBundledCliPath h context = Ok bundledBin ->
             forall (st : State) (args : list string),
               extensionContext st = Some context ->
               forall bin : string, binToUse h bundledBin = bin ->
               spawned (snd (run h st args))
                 = {| spawn_file := bin; spawn_args := args;
                      spawn_timeout := 15000 |} :: spawned st).
  { intros bundledBin Hb st args Hctx bin <-.
    exact (proj2 (run_spawns h st context bundledBin args Hctx Hb)). }
  destruct (String.eqb_spec (platform h) "darwin") as [Hd|Hd];
    [|destruct (String.eqb_spec (platform h) "win32") as [Hw|Hw];
      [|destruct (String.eqb_spec (arch h) "arm64") as [Ha|Ha]]];
    eexists _, _; (split; [reflexivity|]); cbv zeta;
    (split; [exact Htab|]);
    (split; [rewrite path_join_5; apply endsWith_app_true;
             apply endsWith_app_true; unfold path_sep;
             destruct (platform h =? "win32")%string; reflexivity|]);
    (split; [|split; [exact Hpure|
       split; intros st args Hctx Hex;
         apply (Hrun _ Htab st args Hctx); unfold binToUse;
         now rewrite Hex]]).
  - split; [|intros Hw; congruence].
    rewrite path_join_5, append_assoc. unfold path_sep.
    rewrite Hd. cbn [String.eqb Ascii.eqb Bool.eqb].
    rewrite endsWith_app_false; [discriminate| |reflexivity].
    simpl. lia.
  - split; [intros _; exact Hw|intros _].
    rewrite path_join_5, append_assoc. unfold path_sep.
    rewrite Hw. apply endsWith_app_true. reflexivity.
  - split; [|intros Hw'; congruence].
    rewrite path_join_5, append_assoc. unfold path_sep.
    destruct (String.eqb_spec (platform h) "win32"); [congruence|].
    rewrite endsWith_app_false; [discriminate| |reflexivity].
    simpl. lia.
  - split; [|intros Hw'; congruence].
    rewrite path_join_5, append_assoc. unfold path_sep.
    destruct (String.eqb_spec (platform h) "win32"); [congruence|].
    rewrite endsWith_app_false; [discriminate| |reflexivity].
    simpl. lia.
Qed.

Lemma binary_resolution_witness :
  exists subdir name : string,
    (subdir, name) = ("linux-arm64", "costa")
    /\ getBundledCliPath (Sample.host "linux" "arm64" false Sample.missing)
         Sample.context
       = Ok (path_join (Sample.host "linux" "arm64" false Sample.missing)
               ["/ext"; "res"; "bin"; subdir; name]).
Proof.
  destruct (binary_resolution
              (Sample.host "linux" "arm64" false Sample.missing)
              Sample.context "/ext" eq_refl eq_refl)
    as (subdir & name & Hname & Hpath & _).
  exists subdir, name. split; [exact Hname | exact Hpath].
Defined.

(** C7. With the bundled path absent, [run] executes the bare name [costa];
    when that spawn fails with an error whose message contains [ENOENT], as
    the runtime reports a file it cannot find, [run] rejects with the
    dedicated not-found message, whatever the error and the captured stderr
    are, and not with the message assembled from them. *)
Theorem run_reports_cli_not_found (h : Host) (st : State)
  (context : ExtensionContext) (bundledBin : string) (args : list string) :
  extensionContext st = Some context ->
  getBundledCliPath h context = Ok bundledBin ->
  existsSync h bundledBin = false ->
  (forall (err : ExecError) (out errtxt : string),
      execFile h "costa" args 15000 = ExecFail err out errtxt ->
      includes "ENOENT" (err_message err) = true ->
      fst (run h st args) = Throw not_found_message)
  /\ (forall c : Child,
         execFile h "costa" args 15000 = node_execFile c "costa" args 15000 ->
         spawn_errno c = Some "ENOENT" ->
         fst (run h st args) = Throw not_found_message).
Proof.
  intros Hctx Hpath Hex.
  destruct (run_spawns h st context bundledBin args Hctx Hpath) as [Hrun _].
  unfold binToUse in Hrun. rewrite Hex in Hrun.
  assert (Hgen : forall (err : ExecError) (out errtxt : string),
             execFile h "costa" args 15000 = ExecFail err out errtxt ->
             includes "ENOENT" (err_message err) = true ->
             fst (run h st args) = Throw not_found_message).
  { intros err out errtxt Hfail Hinc. rewrite Hrun, Hfail.
    unfold classify. now rewrite Hinc. }
  split; [exact Hgen|].
  intros c Hnode Herrno. unfold node_execFile in Hnode.
  rewrite Herrno in Hnode. now apply (Hgen _ _ _ Hnode).
Qed.

Lemma run_reports_cli_not_found_witness :
  fst (run (Sample.host "linux" "x64" false Sample.missing)
         (setContext initial Sample.context) Sample.status_args)
    = Throw not_found_message.
Proof.
  exact (proj2 (run_reports_cli_not_found
                  (Sample.host "linux" "x64" false Sample.missing)
                  (setContext initial Sample.context) Sample.context
                  "/ext/res/bin/linux-x64/costa" Sample.status_args
                  eq_refl eq_refl eq_refl)
           Sample.missing eq_refl eq_refl).
Defined.








(** C10. While [extensionContext] is still null, each of [login], [status],
    [token] and [logout] rejects with the not-initialised message and leaves
    the list of spawned processes as it was; once [setContext] has stored a
    context that provides an extension root, [run] gets past that test: it
    spawns its process and returns what the execution yields. *)
Theorem facade_requires_context (h : Host) (st : State) :
  extensionContext st = None ->
  not_initialized_message
    = "CLI context not initialized. Call setContext() first."
  /\ login h st = (Throw not_initialized_message, st)
  /\ status h st = (Throw not_initialized_message, st)
  /\ token h st = (Throw not_initialized_message, st)
  /\ logout h st = (Throw not_initialized_message, st)
  /\ (forall (context : ExtensionContext) (root : string)
            (args : list string),
         extRoot_of context = Some root -> truthy root = true ->
         exists bin : string,
           spawned (snd (run h (setContext st context) args))
             = {| spawn_file := bin; spawn_args := args;
                  spawn_timeout := 15000 |} :: spawned st
           /\ fst (run h (setContext st context) args)
              = classify bin (execFile h bin args 15000)).
Proof.
  intros Hnone. split; [reflexivity|].
  unfold login, status, token, logout, parsed, run. rewrite Hnone.
  repeat (split; [reflexivity|]).
  intros context root args Hroot Htruthy.
  pose proof (getBundledCliPath_table h context root Hroot Htruthy) as Htab.
  destruct (run_spawns h (setContext st context) context _ args
              eq_refl Htab) as [Hres Hsp].
  eexists. split; [exact Hsp | exact Hres].
Qed.

Lemma facade_requires_context_witness :
  status (Sample.host "linux" "x64" true Sample.failing) initial
    = (Throw not_initialized_message, initial).
Proof.
  exact (proj1 (proj2 (proj2
           (facade_requires_context
              (Sample.host "linux" "x64" true Sample.failing)
              initial eq_refl)))).
Defined.

End CliFacts.

(** * Properties of [fetchUsageData] *)
Section FetchFacts.
Import UsageStream.

Lemma emitted_resume (a : Awaiter) (outcome : Res unit) (s : State) :
  emitted (resume a outcome s) = emitted s.
Proof. destruct a, outcome; reflexivity. Qed.

Lemma emitted_settle (p : Pending) (r : Res Cli.StatusResult) (s : State) :
  emitted (settle p r s) = (emitted s ++ snd (fetchUsageData_settled r))%list.
Proof.
  unfold settle. destruct (fetchUsageData_settled r) as [outcome evs].
  now rewrite emitted_resume.
Qed.

Lemma defaulted_is_defined (v : JsValue) :
  not_undefined (nullish v (JNumber 0)) = true.
Proof. destruct v; reflexivity. Qed.

Lemma guard_passes (statusResult : Cli.StatusResult) :
  has_usage_data (usageData_of statusResult) = true.
Proof.
  unfold has_usage_data, usageData_of.
  cbn [UsageStream.points]. now rewrite defaulted_is_defined.
Qed.

Lemma settled_logged_in (statusResult : Cli.StatusResult) :
  Cli.logged_in statusResult = true ->
  fetchUsageData_settled (Ok statusResult)
    = (Ok tt, [usageData_of statusResult]).
Proof.
  intros Hin. unfold fetchUsageData_settled.
  now rewrite Hin, guard_passes.
Qed.

Lemma settled_ok (statusResult : Cli.StatusResult) :
  fetchUsageData_settled (Ok statusResult)
    = (Ok tt, snd (fetchUsageData_settled (Ok statusResult))).
Proof.
  unfold fetchUsageData_settled.
  destruct (negb (Cli.logged_in statusResult)); [reflexivity|].
  now rewrite guard_passes.
Qed.

(** C5. When the status result says [logged_in: false], [fetchUsageData]
    resolves and emits nothing; on [{logged_in: true, points: 5,
    total_points: "∞"}] it emits exactly one "usage" event with [points] 5
    and [total_points] the unchanged string; a missing [points] or
    [total_points] is 0 in the emitted snapshot.  In the supervisor the
    events of a settled call are appended to those emitted before. *)
Theorem fetchUsageData_status_cases :
  (forall p t : JsValue,
      fetchUsageData_settled
        (Ok {| Cli.logged_in := false; Cli.points := p; Cli.total_points := t |})
      = (Ok tt, []))
  /\ fetchUsageData_settled
       (Ok {| Cli.logged_in := true; Cli.points := JNumber 5;
              Cli.total_points := JString "∞" |})
     = (Ok tt, [{| UsageStream.points := JNumber 5;
                   UsageStream.total_points := JString "∞";
                   context_length := JString "-" |}])
  /\ (forall t : JsValue,
         exists d : UsageData,
           fetchUsageData_settled
             (Ok {| Cli.logged_in := true; Cli.points := JUndefined;
                    Cli.total_points := t |}) = (Ok tt, [d])
           /\ UsageStream.points d = JNumber 0)
  /\ (forall p : JsValue,
         exists d : UsageData,
           fetchUsageData_settled
             (Ok {| Cli.logged_in := true; Cli.points := p;
                    Cli.total_points := JUndefined |}) = (Ok tt, [d])
           /\ UsageStream.total_points d = JNumber 0)
  /\ (forall (p : Pending) (r : Res Cli.StatusResult) (s : State),
         emitted (settle p r s)
         = (emitted s ++ snd (fetchUsageData_settled r))%list).
Proof.
  split; [reflexivity|]. split; [reflexivity|].
  split; [|split; [|exact emitted_settle]].
  - intros t. eexists. split; [now apply settled_logged_in | reflexivity].
  - intros p. eexists. split; [now apply settled_logged_in | reflexivity].
Qed.



End FetchFacts.

(** * Facts about the timer table *)
Section TimerFacts.
Import Timers.
Context {C : Type}.
Implicit Types (tbl : Table C) (t : Timer C).

Lemma In_clear h tbl t :
  In t (clear h tbl) <-> In t tbl /\ handle t <> h.
Proof.
  unfold clear. rewrite filter_In, negb_true_iff, Nat.eqb_neq. tauto.
Qed.

Lemma In_clear_opt o tbl t :
  In t (clear_opt o tbl) <-> In t tbl /\ o <> Some (handle t).
Proof.
  destruct o as [h|]; simpl.
  - rewrite In_clear. split; intros [Hin Hne]; split; congruence.
  - split; [intros Hin; split; [assumption|discriminate] | tauto].
Qed.

Lemma NoDup_map_filter {V K : Type} (key : V -> K) (keep : V -> bool) :
  forall entries : list V,
    NoDup (map key entries) -> NoDup (map key (filter keep entries)).
Proof.
  intros entries. induction entries as [|v entries IH]; simpl; intros Hnd;
    [constructor|].
  inversion Hnd as [|? ? Hnotin Hnd']; subst.
  destruct (keep v); simpl; [constructor|]; auto.
  intros Hin. apply Hnotin. apply in_map_iff in Hin.
  destruct Hin as (x & Hx & Hin). apply in_map_iff. exists x.
  apply filter_In in Hin. tauto.
Qed.

Lemma NoDup_clear h tbl :
  NoDup (map handle tbl) -> NoDup (map handle (clear h tbl)).
Proof. apply NoDup_map_filter. Qed.

Lemma NoDup_clear_opt o tbl :
  NoDup (map handle tbl) -> NoDup (map handle (clear_opt o tbl)).
Proof. destruct o; [apply NoDup_clear | trivial]. Qed.

Lemma NoDup_snoc {A : Type} (l : list A) (a : A) :
  NoDup l -> ~ In a l -> NoDup (l ++ [a]).
Proof.
  intros Hnd Hnotin. induction Hnd as [|x l Hx Hnd IH]; simpl.
  - constructor; [tauto | constructor].
  - constructor.
    + rewrite in_app_iff. simpl. intros [Hin|[->|[]]]; [tauto|].
      apply Hnotin. now left.
    + apply IH. intros Hin. apply Hnotin. now right.
Qed.

Lemma lookup_In h tbl t :
  lookup h tbl = Some t -> In t tbl /\ handle t = h.
Proof.
  unfold lookup. intros Hfind. apply find_some in Hfind.
  now rewrite Nat.eqb_eq in Hfind.
Qed.

Lemma ready_In h now tbl t :
  ready h now tbl = Some t -> In t tbl /\ handle t = h /\ due t <= now.
Proof.
  unfold ready. destruct (lookup h tbl) as [t'|] eqn:Hl; [|discriminate].
  destruct (Z.leb_spec (due t') now); [|discriminate].
  intros [= <-]. apply lookup_In in Hl. tauto.
Qed.

Lemma lookup_unique h tbl t :
  NoDup (map handle tbl) -> In t tbl -> handle t = h -> lookup h tbl = Some t.
Proof.
  unfold lookup. induction tbl as [|a tbl IH]; simpl; [tauto|].
  intros Hnd Hin Hh. inversion Hnd as [|? ? Hnotin Hnd']; subst.
  destruct Hin as [->|Hin].
  - now rewrite Nat.eqb_refl.
  - destruct (Nat.eqb_spec (handle a) (handle t)) as [Heq|Hne]; [|auto].
    exfalso. apply Hnotin. rewrite Heq. now apply in_map.
Qed.

Lemma may_elapse_spec now ms tbl :
  may_elapse now ms tbl = true ->
  0 <= ms /\ forall t, In t tbl -> now + ms <= due t.
Proof.
  unfold may_elapse. rewrite andb_true_iff, forallb_forall.
  intros [Hms Hall]. split; [lia|].
  intros t Hin. specialize (Hall t Hin). lia.
Qed.


Lemma map_handle_rearm h now tbl :
  map handle (rearm h now tbl) = map handle tbl.
Proof.
  unfold rearm. rewrite map_map. apply map_ext. intros t.
  destruct (Nat.eqb (handle t) h); [|reflexivity].
  destruct (repeat t); reflexivity.
Qed.

Lemma In_rearm h now tbl t' :
  In t' (rearm h now tbl) ->
  exists t, In t tbl /\ handle t' = handle t /\ callback t' = callback t
            /\ repeat t' = repeat t
            /\ (due t' = due t
                \/ exists ms, repeat t = Some ms /\ due t' = now + ms).
Proof.
  unfold rearm. rewrite in_map_iff. intros (t & <- & Hin).
  exists t. split; [assumption|].
  destruct (Nat.eqb (handle t) h); [|tauto].
  destruct (repeat t) as [ms|] eqn:Hrep; [|tauto].
  simpl. repeat split; try congruence. right. now exists ms.
Qed.

Lemma filter_nil_iff {A : Type} (p : A -> bool) (l : list A) :
  (forall a, In a l -> p a = false) -> filter p l = [].
Proof.
  induction l as [|a l IH]; simpl; [reflexivity|]. intros Hall.
  rewrite (Hall a) by now left. apply IH. intros b Hb. apply Hall. now right.
Qed.


End TimerFacts.

(** * The invariants hold in every reachable state *)
Section UsageInvariants.
Import Timers UsageStream UsageInv.

Lemma TimersInv_ext (s s' : State) :
  now s' = now s -> timers s' = timers s -> next_handle s' = next_handle s ->
  pollInterval s' = pollInterval s ->
  reconnectTimeout s' = reconnectTimeout s ->
  TimersInv s -> TimersInv s'.
Proof.
  intros Hn Ht Hh Hp Hr [I1 I2 I3 I4 I5].
  constructor; rewrite ?Hn, ?Ht, ?Hh, ?Hp, ?Hr; assumption.
Qed.

Lemma CallsInv_ext (s s' : State) :
  pending s' = pending s -> status_calls s' = status_calls s ->
  isConnecting s' = isConnecting s ->
  CallsInv s -> CallsInv s'.
Proof.
  intros Hp Hc Hi [I1 I2 I3].
  constructor; rewrite ?Hp, ?Hc, ?Hi; assumption.
Qed.

Lemma TimersInv_initial : TimersInv initial.
Proof. constructor; simpl; try tauto. constructor. Qed.

Lemma CallsInv_initial : CallsInv initial.
Proof. constructor; simpl; try tauto. constructor. Qed.

Lemma fresh_not_in (s : State) :
  TimersInv s -> forall tbl : Table Callback,
  (forall t, In t tbl -> In t (timers s)) ->
  ~ In (next_handle s) (map handle tbl).
Proof.
  intros I tbl Hsub Hin. apply in_map_iff in Hin.
  destruct Hin as (t & Heq & Hin).
  pose proof (ti_fresh s I t (Hsub t Hin)). lia.
Qed.

Lemma TimersInv_setupPolling (s : State) :
  TimersInv s -> TimersInv (setupPolling s).
Proof.
  intros I. pose proof I as [I1 I2 I3 I4 I5].
  constructor; unfold setupPolling, setInterval; cbn [now timers next_handle
    pollInterval reconnectTimeout].
  - intros t Hin Hpoll. apply in_app_iff in Hin. destruct Hin as [Hin|Hin].
    + apply In_clear_opt in Hin. destruct Hin as [Hin Hne].
      destruct (I1 t Hin Hpoll). congruence.
    + destruct Hin as [<-|[]]. split; reflexivity.
  - intros t Hin Hrec. apply in_app_iff in Hin. destruct Hin as [Hin|Hin].
    + apply In_clear_opt in Hin. now apply I2.
    + destruct Hin as [<-|[]]. discriminate.
  - rewrite map_app. apply NoDup_snoc; [now apply NoDup_clear_opt|].
    apply (fresh_not_in s I). intros t Hin. now apply In_clear_opt in Hin.
  - intros t Hin. apply in_app_iff in Hin. destruct Hin as [Hin|Hin].
    + apply In_clear_opt in Hin. destruct Hin as [Hin _].
      specialize (I4 t Hin). lia.
    + destruct Hin as [<-|[]]. simpl. lia.
  - intros t Hin. apply in_app_iff in Hin. destruct Hin as [Hin|Hin].
    + apply In_clear_opt in Hin. now apply I5.
    + destruct Hin as [<-|[]]. simpl. unfold timer_delay. simpl. lia.
Qed.

Lemma TimersInv_scheduleReconnect (s : State) :
  TimersInv s -> TimersInv (scheduleReconnect s).
Proof.
  intros I. pose proof I as [I1 I2 I3 I4 I5].
  constructor; unfold scheduleReconnect, setTimeout; cbn [now timers
    next_handle pollInterval reconnectTimeout].
  - intros t Hin Hpoll. apply in_app_iff in Hin. destruct Hin as [Hin|Hin].
    + apply In_clear_opt in Hin. now apply I1.
    + destruct Hin as [<-|[]]. discriminate.
  - intros t Hin Hrec. apply in_app_iff in Hin. destruct Hin as [Hin|Hin].
    + apply In_clear_opt in Hin. destruct Hin as [Hin Hne].
      destruct (I2 t Hin Hrec). congruence.
    + destruct Hin as [<-|[]]. split; reflexivity.
  - rewrite map_app. apply NoDup_snoc; [now apply NoDup_clear_opt|].
    apply (fresh_not_in s I). intros t Hin. now apply In_clear_opt in Hin.
  - intros t Hin. apply in_app_iff in Hin. destruct Hin as [Hin|Hin].
    + apply In_clear_opt in Hin. destruct Hin as [Hin _].
      specialize (I4 t Hin). lia.
    + destruct Hin as [<-|[]]. simpl. lia.
  - intros t Hin. apply in_app_iff in Hin. destruct Hin as [Hin|Hin].
    + apply In_clear_opt in Hin. now apply I5.
    + destruct Hin as [<-|[]]. simpl. unfold timer_delay. simpl. lia.
Qed.

Lemma kind_cases (t : Timer Callback) :
  is_poll t = true \/ is_reconnect t = true.
Proof. unfold is_poll, is_reconnect. destruct (callback t); auto. Qed.

Lemma timers_disconnect (s : State) :
  TimersInv s -> timers (disconnect s) = [].
Proof.
  intros [I1 I2 _ _ _]. unfold disconnect. cbn [timers].
  destruct (clear_opt (pollInterval s)
              (clear_opt (reconnectTimeout s) (timers s))) as [|t tbl] eqn:E;
    [reflexivity|].
  assert (Hin : In t (clear_opt (pollInterval s)
                        (clear_opt (reconnectTimeout s) (timers s))))
    by (rewrite E; now left).
  apply In_clear_opt in Hin. destruct Hin as [Hin Hp].
  apply In_clear_opt in Hin. destruct Hin as [Hin Hr].
  destruct (kind_cases t) as [Hk|Hk].
  - destruct (I1 t Hin Hk). congruence.
  - destruct (I2 t Hin Hk). congruence.
Qed.

Lemma TimersInv_disconnect (s : State) :
  TimersInv s -> TimersInv (disconnect s).
Proof.
  intros I. pose proof (timers_disconnect s I) as Hnil.
  constructor; rewrite Hnil; simpl; try tauto. constructor.
Qed.

Lemma TimersInv_clear (h : nat) (s : State) :
  TimersInv s -> TimersInv (in_callback (clear h (timers s)) s).
Proof.
  intros [I1 I2 I3 I4 I5].
  constructor; unfold in_callback; cbn [now timers next_handle pollInterval
    reconnectTimeout].
  - intros t Hin. apply In_clear in Hin. now apply I1.
  - intros t Hin. apply In_clear in Hin. now apply I2.
  - now apply NoDup_clear.
  - intros t Hin. apply In_clear in Hin. now apply I4.
  - intros t Hin. apply In_clear in Hin. now apply I5.
Qed.

Lemma TimersInv_connect (s : State) : TimersInv s -> TimersInv (connect s).
Proof.
  unfold connect. destruct (isConnecting s); [trivial|].
  now apply TimersInv_ext.
Qed.

Lemma TimersInv_fire (t : Timer Callback) (s : State) :
  TimersInv s -> In t (timers s) -> TimersInv (fire t s).
Proof.
  intros I Hin. unfold fire. destruct (callback t) eqn:Hcb.
  - destruct I as [I1 I2 I3 I4 I5].
    constructor; cbn [now timers next_handle pollInterval reconnectTimeout
      fetchUsageData in_callback].
    + intros t' Hin' Hpoll. apply In_rearm in Hin'.
      destruct Hin' as (t0 & Hin0 & Hh & Hc & Hr & _).
      rewrite Hh, Hr. apply I1; [assumption|].
      unfold is_poll in *. now rewrite <- Hc.
    + intros t' Hin' Hrec. apply In_rearm in Hin'.
      destruct Hin' as (t0 & Hin0 & Hh & Hc & Hr & _).
      rewrite Hh, Hr. apply I2; [assumption|].
      unfold is_reconnect in *. now rewrite <- Hc.
    + now rewrite map_handle_rearm.
    + intros t' Hin'. apply In_rearm in Hin'.
      destruct Hin' as (t0 & Hin0 & Hh & _). rewrite Hh. now apply I4.
    + intros t' Hin'. apply In_rearm in Hin'.
      destruct Hin' as (t0 & Hin0 & _ & _ & _ & [Hd|(ms & Hrep & Hd)]).
      * rewrite Hd. now apply I5.
      * rewrite Hd. destruct (kind_cases t0) as [Hk|Hk].
        -- destruct (I1 t0 Hin0 Hk) as [_ Hrep']. rewrite Hrep' in Hrep.
           injection Hrep as <-. lia.
        -- destruct (I2 t0 Hin0 Hk) as [_ Hrep']. congruence.
  - apply TimersInv_connect. now apply TimersInv_clear.
Qed.

Lemma TimersInv_elapse (ms : Z) (s : State) :
  may_elapse (now s) ms (timers s) = true ->
  TimersInv s -> TimersInv (elapse ms s).
Proof.
  intros Hmay [I1 I2 I3 I4 I5]. apply may_elapse_spec in Hmay.
  constructor; try assumption. exact (proj2 Hmay).
Qed.

Lemma TimersInv_resume (a : Awaiter) (outcome : Res unit) (s : State) :
  TimersInv s -> TimersInv (resume a outcome s).
Proof.
  intros I. destruct a, outcome; simpl; try assumption.
  - apply (TimersInv_ext (setupPolling s)); try reflexivity.
    now apply TimersInv_setupPolling.
  - apply (TimersInv_ext (scheduleReconnect s)); try reflexivity.
    now apply TimersInv_scheduleReconnect.
  - now apply TimersInv_scheduleReconnect.
Qed.

Lemma TimersInv_settle (p : Pending) (r : Res Cli.StatusResult) (s : State) :
  TimersInv s -> TimersInv (settle p r s).
Proof.
  intros I. unfold settle. destruct (fetchUsageData_settled r) as [o evs].
  apply TimersInv_resume. now apply (TimersInv_ext s).
Qed.

Lemma TimersInv_step (s s' : State) (e : Event) :
  step s e = Some s' -> TimersInv s -> TimersInv s'.
Proof.
  destruct e as [| | |ms|h|c r]; simpl.
  - intros [= <-]. apply TimersInv_connect.
  - intros [= <-]. apply TimersInv_disconnect.
  - intros [= <-]. now apply TimersInv_ext.
  - destruct (may_elapse (now s) ms (timers s)) eqn:Hmay; [|discriminate].
    intros [= <-]. now apply TimersInv_elapse.
  - destruct (ready h (now s) (timers s)) as [t|] eqn:Hr; [|discriminate].
    intros [= <-] I. apply ready_In in Hr. now apply TimersInv_fire.
  - destruct (find _ (pending s)) as [p|]; [|discriminate].
    intros [= <-]. apply TimersInv_settle.
Qed.

Lemma filter_all {A : Type} (q : A -> bool) (l : list A) :
  (forall a, In a l -> q a = true) -> filter q l = l.
Proof.
  induction l as [|a l IH]; simpl; [reflexivity|]. intros Hall.
  rewrite (Hall a) by now left. f_equal. apply IH. intros b Hb.
  apply Hall. now right.
Qed.

Lemma count_remove (q : Pending -> bool) (l : list Pending) (p : Pending) :
  NoDup (map call_id l) -> In p l ->
  (List.length (filter q (filter (other_call (call_id p)) l))
   + (if q p then 1 else 0))%nat = List.length (filter q l).
Proof.
  induction l as [|a l IH]; simpl; [tauto|]. intros Hnd Hin.
  inversion Hnd as [|? ? Hnotin Hnd']; subst.
  destruct Hin as [->|Hin].
  - unfold other_call at 1. rewrite Nat.eqb_refl. simpl.
    rewrite (filter_all (other_call (call_id p))).
    + destruct (q p); simpl; lia.
    + intros b Hb. unfold other_call. apply negb_true_iff, Nat.eqb_neq.
      intros Heq. apply Hnotin. rewrite <- Heq. now apply in_map.
  - assert (Hne : call_id a <> call_id p).
    { intros Heq. apply Hnotin. rewrite Heq. now apply in_map. }
    unfold other_call at 1. apply Nat.eqb_neq in Hne. rewrite Hne. simpl.
    specialize (IH Hnd' Hin). destruct (q a); simpl; lia.
Qed.

Lemma pending_settle (p : Pending) (r : Res Cli.StatusResult) (s : State) :
  pending (settle p r s) = filter (other_call (call_id p)) (pending s).
Proof.
  unfold settle. destruct (fetchUsageData_settled r) as [o evs].
  destruct (awaiter p), o; reflexivity.
Qed.

Lemma status_calls_settle (p : Pending) (r : Res Cli.StatusResult)
  (s : State) :
  status_calls (settle p r s) = status_calls s.
Proof.
  unfold settle. destruct (fetchUsageData_settled r) as [o evs].
  destruct (awaiter p), o; reflexivity.
Qed.

Lemma isConnecting_settle (p : Pending) (r : Res Cli.StatusResult)
  (s : State) :
  isConnecting (settle p r s)
    = if by_connect p then false else isConnecting s.
Proof.
  unfold settle, by_connect. destruct (fetchUsageData_settled r) as [o evs].
  destruct (awaiter p), o; reflexivity.
Qed.

Lemma find_call (c : nat) (l : list Pending) (p : Pending) :
  find (fun p => Nat.eqb (call_id p) c) l = Some p ->
  In p l /\ call_id p = c.
Proof.
  intros Hfind. apply find_some in Hfind. now rewrite Nat.eqb_eq in Hfind.
Qed.

Lemma find_unique (l : list Pending) (p : Pending) :
  NoDup (map call_id l) -> In p l ->
  find (fun p' => Nat.eqb (call_id p') (call_id p)) l = Some p.
Proof.
  induction l as [|a l IH]; simpl; [tauto|]. intros Hnd Hin.
  inversion Hnd as [|? ? Hnotin Hnd']; subst.
  destruct Hin as [->|Hin]; [now rewrite Nat.eqb_refl|].
  destruct (Nat.eqb_spec (call_id a) (call_id p)) as [Heq|Hne]; [|auto].
  exfalso. apply Hnotin. rewrite Heq. now apply in_map.
Qed.

Lemma CallsInv_settle (p : Pending) (r : Res Cli.StatusResult) (s : State) :
  In p (pending s) -> CallsInv s -> CallsInv (settle p r s).
Proof.
  intros Hin [I1 I2 I3].
  constructor;
    rewrite ?pending_settle, ?status_calls_settle, ?isConnecting_settle.
  - now apply NoDup_map_filter.
  - intros p' Hin'. apply filter_In in Hin'. now apply I2.
  - pose proof (count_remove by_connect (pending s) p I1 Hin) as Hcount.
    rewrite I3 in Hcount.
    destruct (by_connect p), (isConnecting s); simpl in *; lia.
Qed.

Lemma CallsInv_fetch (a : Awaiter) (s : State) :
  by_connect {| call_id := status_calls s; awaiter := a |} = false ->
  CallsInv s -> CallsInv (fetchUsageData a s).
Proof.
  intros Ha [I1 I2 I3].
  constructor; unfold fetchUsageData; cbn [pending status_calls isConnecting].
  - rewrite map_app. apply NoDup_snoc; [assumption|]. simpl.
    intros Hin. apply in_map_iff in Hin. destruct Hin as (p & Heq & Hin).
    specialize (I2 p Hin). lia.
  - intros p Hin. apply in_app_iff in Hin. destruct Hin as [Hin|[<-|[]]].
    + specialize (I2 p Hin). lia.
    + simpl. lia.
  - rewrite filter_app, length_app. simpl. rewrite Ha. simpl. lia.
Qed.

Lemma CallsInv_connect (s : State) : CallsInv s -> CallsInv (connect s).
Proof.
  unfold connect. destruct (isConnecting s) eqn:Hflag; [trivial|].
  intros [I1 I2 I3]. rewrite Hflag in I3.
  constructor; unfold fetchUsageData, set_isConnecting;
    cbn [pending status_calls isConnecting].
  - rewrite map_app. apply NoDup_snoc; [assumption|]. simpl.
    intros Hin. apply in_map_iff in Hin. destruct Hin as (p & Heq & Hin).
    specialize (I2 p Hin). lia.
  - intros p Hin. apply in_app_iff in Hin. destruct Hin as [Hin|[<-|[]]].
    + specialize (I2 p Hin). lia.
    + simpl. lia.
  - rewrite filter_app, length_app. simpl. lia.
Qed.

Lemma CallsInv_fire (t : Timer Callback) (s : State) :
  CallsInv s -> CallsInv (fire t s).
Proof.
  intros I. unfold fire. destruct (callback t).
  - apply (CallsInv_ext (fetchUsageData ByPollTick s)); try reflexivity.
    now apply CallsInv_fetch.
  - apply CallsInv_connect. now apply (CallsInv_ext s).
Qed.

Lemma CallsInv_step (s s' : State) (e : Event) :
  step s e = Some s' -> CallsInv s -> CallsInv s'.
Proof.
  destruct e as [| | |ms|h|c r]; simpl.
  - intros [= <-]. apply CallsInv_connect.
  - intros [= <-]. now apply CallsInv_ext.
  - intros [= <-]. now apply CallsInv_fetch.
  - destruct (may_elapse (now s) ms (timers s)); [|discriminate].
    intros [= <-]. now apply CallsInv_ext.
  - destruct (ready h (now s) (timers s)) as [t|]; [|discriminate].
    intros [= <-]. apply CallsInv_fire.
  - destruct (find _ (pending s)) as [p|] eqn:Hf; [|discriminate].
    intros [= <-]. apply find_call in Hf. now apply CallsInv_settle.
Qed.

Lemma invariants_run (tr : list Event) (s s' : State) :
  run s tr = Some s' -> TimersInv s /\ CallsInv s ->
  TimersInv s' /\ CallsInv s'.
Proof.
  revert s. induction tr as [|e tr IH]; simpl; intros s.
  - now intros [= <-].
  - destruct (step s e) as [s1|] eqn:Hstep; [|discriminate].
    intros Hrun [IT IC]. apply (IH s1 Hrun). split.
    + exact (TimersInv_step s s1 e Hstep IT).
    + exact (CallsInv_step s s1 e Hstep IC).
Qed.

Lemma invariants_reachable (tr : list Event) (s : State) :
  run initial tr = Some s -> TimersInv s /\ CallsInv s.
Proof.
  intros Hrun. apply (invariants_run tr initial s Hrun).
  split; [exact TimersInv_initial | exact CallsInv_initial].
Qed.

End UsageInvariants.

(** * Properties of the usage stream supervisor *)
Section UsageFacts.
Import Timers UsageStream UsageInv.

Lemma reconnect_after_schedule (s : State) :
  TimersInv s ->
  filter is_reconnect (timers (scheduleReconnect s))
    = [{| handle := next_handle s; callback := Reconnect;
          due := now s + 5000; repeat := None |}].
Proof.
  intros [_ I2 _ _ _]. unfold scheduleReconnect, setTimeout. cbn [timers].
  rewrite filter_app, filter_nil_iff; [reflexivity|].
  intros t Hin. apply In_clear_opt in Hin. destruct Hin as [Hin Hne].
  destruct (is_reconnect t) eqn:Hk; [|reflexivity].
  destruct (I2 t Hin Hk). congruence.
Qed.

Lemma poll_after_setup (s : State) :
  TimersInv s ->
  filter is_poll (timers (setupPolling s))
    = [{| handle := next_handle s; callback := PollTick;
          due := now s + 3000; repeat := Some 3000 |}].
Proof.
  intros [I1 _ _ _ _]. unfold setupPolling, setInterval. cbn [timers].
  rewrite filter_app, filter_nil_iff; [reflexivity|].
  intros t Hin. apply In_clear_opt in Hin. destruct Hin as [Hin Hne].
  destruct (is_poll t) eqn:Hk; [|reflexivity].
  destruct (I1 t Hin Hk). congruence.
Qed.





(** C3. A [connect] called while [isConnecting] is set, which in every
    reachable state is exactly while the [fetchUsageData] of an earlier
    [connect] is pending, returns at once and changes nothing; so two
    [connect] calls in a row from a state that is not connecting make one
    [fetchUsageData] call between them.  However the pending call of a
    [connect] settles (resolved, logged in or not, or rejected), the flag is
    cleared. *)
Theorem connect_reentrancy_guard (tr : list Event) (s : State) :
  run initial tr = Some s ->
  (List.length (filter by_connect (pending s))
   = if isConnecting s then 1%nat else 0%nat)
  /\ (isConnecting s = true -> connect s = s)
  /\ (isConnecting s = false ->
      run s [CallConnect; CallConnect] = Some (connect s)
      /\ status_calls (connect s) = S (status_calls s)
      /\ isConnecting (connect s) = true
      /\ filter by_connect (pending (connect s))
         = [{| call_id := status_calls s; awaiter := ByConnect |}])
  /\ (forall (p : Pending) (r : Res Cli.StatusResult),
         In p (pending s) -> awaiter p = ByConnect ->
         step s (Settle (call_id p) r) = Some (settle p r s)
         /\ isConnecting (settle p r s) = false).
Proof.
  intros Hrun. destruct (invariants_reachable tr s Hrun) as [IT IC].
  split; [apply (ci_connecting s IC)|]. split; [|split].
  - intros Hflag. unfold connect. now rewrite Hflag.
  - intros Hflag. pose proof (ci_connecting s IC) as Hcount.
    rewrite Hflag in Hcount. apply length_zero_iff_nil in Hcount.
    unfold run, step, connect. rewrite Hflag.
    cbn [isConnecting fetchUsageData set_isConnecting pending status_calls].
    repeat split. now rewrite filter_app, Hcount.
  - intros p r Hin Ha. split.
    + simpl. now rewrite (find_unique (pending s) p (ci_nodup s IC) Hin).
    + rewrite isConnecting_settle. unfold by_connect. now rewrite Ha.
Qed.

Lemma connect_reentrancy_guard_witness :
  run initial [CallConnect; CallConnect] = Some (connect initial)
  /\ status_calls (connect initial) = 1%nat.
Proof.
  destruct (connect_reentrancy_guard [] initial eq_refl)
    as (_ & _ & Hidle & _).
  destruct (Hidle eq_refl) as (Hrun & Hcalls & _).
  split; [exact Hrun | exact Hcalls].
Defined.

Lemma quiescent_step (s s' : State) (e : Event) :
  quiescent s -> internal e = true -> step s e = Some s' ->
  quiescent s' /\ status_calls s' = status_calls s /\ fired s' = fired s.
Proof.
  intros [Hnil Hcalls] Hint. destruct e as [| | |ms|h|c r]; try discriminate;
    simpl.
  - destruct (may_elapse (now s) ms (timers s)); [|discriminate].
    intros [= <-]. repeat split; assumption.
  - rewrite Hnil. discriminate.
  - destruct (find _ (pending s)) as [p|] eqn:Hf; [|discriminate].
    intros [= <-]. apply find_call in Hf. destruct Hf as [Hin _].
    specialize (Hcalls p Hin) as Hp. unfold rearming in Hp.
    unfold settle. destruct (fetchUsageData_settled r) as [o evs].
    destruct (awaiter p); try discriminate. simpl.
    repeat split; try assumption.
    intros p' Hin'. apply filter_In in Hin'. now apply Hcalls.
Qed.

Lemma quiescent_run (tr : list Event) (s s' : State) :
  quiescent s -> Forall (fun e => internal e = true) tr ->
  run s tr = Some s' ->
  quiescent s' /\ status_calls s' = status_calls s /\ fired s' = fired s.
Proof.
  revert s. induction tr as [|e tr IH]; simpl; intros s Hq Hall.
  - intros [= <-]. auto.
  - destruct (step s e) as [s1|] eqn:Hstep; [|discriminate].
    inversion Hall as [|? ? He Hall']; subst. intros Hrun.
    destruct (quiescent_step s s1 e Hq He Hstep) as (Hq1 & Hc1 & Hf1).
    destruct (IH s1 Hq1 Hall' Hrun) as (Hq' & Hc' & Hf').
    repeat split; [apply Hq' | apply Hq' | congruence | congruence].
Qed.

(** C1, as stated, fails: [disconnect] is called while the [fetchUsageData]
    of [connect] is in flight; the call then resolves, [connect] resumes and
    sets up polling, and with the clock advanced by 6000 ms the poll timer
    has fired and a second status call has gone out. *)
Lemma disconnect_with_fetch_in_flight_rearms :
  let s1 := Sample.usage_after [CallConnect; CallDisconnect] in
  let s2 := Sample.usage_after
              [CallConnect; CallDisconnect;
               Settle 0 (Sample.logged_in_with (JNumber 5) (JNumber 9));
               Elapse 3000; Fire 0; Elapse 3000] in
  run initial [CallConnect; CallDisconnect] = Some s1
  /\ timers s1 = [] /\ status_calls s1 = 1%nat /\ fired s1 = 0%nat
  /\ run s1 [Settle 0 (Sample.logged_in_with (JNumber 5) (JNumber 9));
             Elapse 3000; Fire 0; Elapse 3000] = Some s2
  /\ now s2 = now s1 + 6000
  /\ fired s2 = 1%nat /\ status_calls s2 = 2%nat.
Proof. vm_compute. repeat split. Qed.

(** C1, amended. [disconnect] leaves no active timer and both handles null.
    When no [fetchUsageData] started by [connect] or by a poll tick is in
    flight at that moment, nothing of the supervisor runs afterwards: along
    every continuation made of clock advances, timer firings and settling
    calls, no timer callback fires, no status call goes out and the timer
    table stays empty; and the clock can be advanced by any amount.  A call
    in flight is not cancelled, and what it does when it settles after the
    disconnect depends on who awaits it: the call of a [connect] arms the
    poll timer when it resolves and the reconnect timer when it is rejected;
    the call of a poll tick arms the reconnect timer when it is rejected and
    nothing when it resolves; the call of an outside caller arms nothing. *)
Theorem disconnect_cancels_all_timers (tr : list Event) (s : State) :
  run initial tr = Some s ->
  timers (disconnect s) = []
  /\ pollInterval (disconnect s) = None
  /\ reconnectTimeout (disconnect s) = None
  /\ status_calls (disconnect s) = status_calls s
  /\ (forall ms : Z,
         0 <= ms ->
         step (disconnect s) (Elapse ms) = Some (elapse ms (disconnect s)))
  /\ ((forall p : Pending, In p (pending s) -> rearming p = false) ->
      forall (tr' : list Event) (s' : State),
        Forall (fun e => internal e = true) tr' ->
        run (disconnect s) tr' = Some s' ->
        timers s' = []
        /\ status_calls s' = status_calls s
        /\ fired s' = fired s)
  /\ (forall (p : Pending) (r : Res Cli.StatusResult),
         In p (pending s) ->
         step (disconnect s) (Settle (call_id p) r)
           = Some (settle p r (disconnect s))
         /\ timers (settle p r (disconnect s))
            = match awaiter p, r with
              | ByConnect, Ok _ =>
                  [{| handle := next_handle s; callback := PollTick;
                      due := now s + 3000; repeat := Some 3000 |}]
              | ByConnect, Throw _ | ByPollTick, Throw _ =>
                  [{| handle := next_handle s; callback := Reconnect;
                      due := now s + 5000; repeat := None |}]
              | ByPollTick, Ok _ | ByCaller, _ => []
              end).
Proof.
  intros Hrun. destruct (invariants_reachable tr s Hrun) as [IT IC].
  pose proof (timers_disconnect s IT) as Hnil.
  split; [exact Hnil|]. repeat (split; [reflexivity|]). split; [|split].
  - intros ms Hms. unfold step. rewrite Hnil. unfold may_elapse.
    cbn [forallb]. rewrite andb_true_r.
    destruct (Z.leb_spec 0 ms); [reflexivity | lia].
  - intros Hcalls tr' s' Hall Hrun'.
    assert (Hq : quiescent (disconnect s)) by (split; assumption).
    destruct (quiescent_run tr' (disconnect s) s' Hq Hall Hrun')
      as ([Hnil' _] & Hc & Hf).
    repeat split; assumption.
  - intros p r Hin. split.
    + cbn [step]. change (pending (disconnect s)) with (pending s).
      now rewrite (find_unique (pending s) p (ci_nodup s IC) Hin).
    + unfold settle.
      assert (Hres : forall evs, timers (received (call_id p) evs
                                           (disconnect s)) = [])
        by (intros evs; exact Hnil).
      destruct r as [sr|m].
      * rewrite settled_ok.
        destruct (awaiter p); cbn [resume]; try apply Hres.
        unfold set_isConnecting, setupPolling, setInterval.
        cbn [timers]. rewrite Hres. reflexivity.
      * cbn [fetchUsageData_settled].
        destruct (awaiter p); cbn [resume]; try apply Hres.
        -- unfold set_isConnecting, scheduleReconnect, setTimeout.
           cbn [timers]. rewrite Hres. reflexivity.
        -- unfold scheduleReconnect, setTimeout.
           cbn [timers]. rewrite Hres. reflexivity.
Qed.

Lemma disconnect_cancels_all_timers_witness :
  List.length (timers (Sample.usage_after Sample.connected_and_polling)) = 2%nat
  /\ timers (disconnect (Sample.usage_after Sample.connected_and_polling)) = [].
Proof.
  assert (Hrun : run initial Sample.connected_and_polling
                 = Some (Sample.usage_after Sample.connected_and_polling))
    by (vm_compute; reflexivity).
  split; [vm_compute; reflexivity|].
  exact (proj1 (disconnect_cancels_all_timers Sample.connected_and_polling
                  (Sample.usage_after Sample.connected_and_polling) Hrun)).
Defined.

End UsageFacts.

(** * Properties of the login poller *)
Section LoginFacts.
Import Timers LoginPoller LoginInv.

Lemma timer_delay_pos (ms : Z) : 1 <= timer_delay ms.
Proof.
  unfold timer_delay.
  destruct (Z.ltb_spec ms 1); simpl; [lia|].
  destruct (Z.ltb_spec 2147483647 ms); lia.
Qed.

Lemma login_kind_cases (t : Timer Callback) :
  is_poll t = true \/ is_timeout t = true.
Proof. unfold is_poll, is_timeout. destruct (callback t); auto. Qed.

Lemma Inv_start (ts : option Z) : Inv ts (start ts).
Proof.
  constructor; unfold start, setTimeout, setInterval;
    cbn [now timers pollInterval status_calls timeouts successes connects
         app]; try reflexivity; try (intros H; now elim H).
  - intros t [<-|[<-|[]]]; [intros _|discriminate]. repeat split.
  - intros t [<-|[<-|[]]]; [discriminate|intros _]. reflexivity.
  - simpl. constructor; [simpl; intros [H|[]]; discriminate|].
    constructor; [tauto|constructor].
  - intros t [<-|[<-|[]]]; simpl.
    + unfold timer_delay. simpl. lia.
    + pose proof (timer_delay_pos (timeoutSeconds ts * 1000)). lia.
  - intros _. right. left. reflexivity.
Qed.

Lemma In_rearm_exact {C : Type} (h : nat) (now : Z) (tbl : Table C)
  (t' : Timer C) :
  In t' (rearm h now tbl) ->
  exists t, In t tbl
    /\ t' = if Nat.eqb (handle t) h then
              match repeat t with
              | Some ms => {| handle := handle t; callback := callback t;
                              due := now + ms; repeat := repeat t |}
              | None => t
              end
            else t.
Proof.
  unfold rearm. rewrite in_map_iff. intros (t & <- & Hin). now exists t.
Qed.

Lemma In_rearm_other {C : Type} (h : nat) (now : Z) (tbl : Table C)
  (t : Timer C) :
  In t tbl -> repeat t = None -> In t (rearm h now tbl).
Proof.
  intros Hin Hrep. unfold rearm. apply in_map_iff. exists t.
  split; [|assumption]. rewrite Hrep. now destruct (Nat.eqb (handle t) h).
Qed.

Lemma Inv_elapse (ts : option Z) (ms : Z) (s : State) :
  may_elapse (now s) ms (timers s) = true ->
  Inv ts s -> Inv ts (elapse ms s).
Proof.
  intros Hmay [I1 I2 I3 I4 I5 I6 I7 I8 I9].
  apply may_elapse_spec in Hmay. destruct Hmay as [Hms Hall].
  constructor; unfold elapse; cbn [now timers pollInterval status_calls
    timeouts successes connects]; try assumption.
  intros Hne. destruct (I7 Hne) as (H1 & H2 & H3). repeat split; try lia.
  assumption.
Qed.

Lemma Inv_poll (ts : option Z) (t : Timer Callback) (s : State) :
  In t (timers s) -> is_poll t = true -> due t <= now s ->
  Inv ts s -> Inv ts (poll s).
Proof.
  intros Hin Hk Hdue [I1 I2 I3 I4 I5 I6 I7 I8 I9].
  assert (Hnow : now s = 3000 * (Z.of_nat (status_calls s) + 1)).
  { destruct (I2 t Hin Hk) as (_ & _ & Hd). specialize (I5 t Hin). lia. }
  assert (Harmed : timeouts s = 0%nat).
  { destruct (Nat.eq_dec (timeouts s) 0) as [|Hne]; [assumption|].
    destruct (I7 Hne) as (_ & Hnil & _). rewrite Hnil in Hin. elim Hin. }
  constructor; unfold poll; cbn [now timers pollInterval status_calls
    timeouts successes connects]; try assumption.
  - intros t' Hin' Hk'. apply In_rearm_exact in Hin'.
    destruct Hin' as (t0 & Hin0 & ->).
    destruct (login_kind_cases t0) as [Hk0|Hk0].
    + destruct (I2 t0 Hin0 Hk0) as (Hh & Hrep & Hd).
      rewrite I1, Hh, Hrep. simpl. repeat split; try assumption. lia.
    + rewrite (I3 t0 Hin0 Hk0) in Hk'. rewrite I1 in Hk'. discriminate.
  - intros t' Hin' Hk'. apply In_rearm_exact in Hin'.
    destruct Hin' as (t0 & Hin0 & ->).
    destruct (login_kind_cases t0) as [Hk0|Hk0].
    + destruct (I2 t0 Hin0 Hk0) as (Hh & Hrep & Hd).
      rewrite I1, Hh, Hrep in Hk'. simpl in Hk'.
      unfold is_timeout in Hk'. unfold is_poll in Hk0. simpl in Hk'.
      destruct (callback t0); discriminate.
    + rewrite (I3 t0 Hin0 Hk0), I1. reflexivity.
  - now rewrite map_handle_rearm.
  - intros t' Hin'. apply In_rearm_exact in Hin'.
    destruct Hin' as (t0 & Hin0 & ->).
    destruct (login_kind_cases t0) as [Hk0|Hk0].
    + destruct (I2 t0 Hin0 Hk0) as (Hh & Hrep & Hd).
      rewrite I1, Hh, Hrep. simpl. lia.
    + replace (repeat t0) with (@None Z)
        by (now rewrite (I3 t0 Hin0 Hk0)).
      destruct (Nat.eqb (handle t0) (pollInterval s)); now apply I5.
  - intros _. apply In_rearm_other; [now apply I6 | reflexivity].
  - intros Hne. congruence.
  - intros Hne. specialize (I8 Hne t Hin). congruence.
Qed.

Lemma timers_timed_out (ts : option Z) (h : nat) (s : State) :
  Inv ts s -> h = 1%nat -> timers (timed_out h s) = [].
Proof.
  intros [I1 I2 I3 _ _ _ _ _ _] ->. unfold timed_out. cbn [timers].
  destruct (clear (pollInterval s) (clear 1 (timers s))) as [|t tbl] eqn:E;
    [reflexivity|].
  assert (Hin : In t (clear (pollInterval s) (clear 1 (timers s))))
    by (rewrite E; now left).
  apply In_clear in Hin. destruct Hin as [Hin Hp].
  apply In_clear in Hin. destruct Hin as [Hin Hr].
  destruct (login_kind_cases t) as [Hk|Hk].
  - destruct (I2 t Hin Hk) as (Hh & _). congruence.
  - rewrite (I3 t Hin Hk) in Hr. now elim Hr.
Qed.

Lemma Inv_timed_out (ts : option Z) (t : Timer Callback) (s : State) :
  In t (timers s) -> is_timeout t = true -> due t <= now s ->
  Inv ts s -> Inv ts (timed_out (handle t) s).
Proof.
  intros Hin Hk Hdue I. pose proof I as [I1 I2 I3 I4 I5 I6 I7 I8 I9].
  assert (Harmed : timeouts s = 0%nat).
  { destruct (Nat.eq_dec (timeouts s) 0) as [|Hne]; [assumption|].
    destruct (I7 Hne) as (_ & Hnil & _). rewrite Hnil in Hin. elim Hin. }
  pose proof (I3 t Hin Hk) as Ht.
  assert (Hnil : timers (timed_out (handle t) s) = []).
  { apply (timers_timed_out ts); [assumption | now rewrite Ht]. }
  constructor; rewrite ?Hnil; try (now intros t' []).
  - exact I1.
  - constructor.
  - unfold timed_out. cbn [timeouts]. discriminate.
  - intros _. change (timeouts (timed_out (handle t) s))
      with (S (timeouts s)).
    change (now (timed_out (handle t) s)) with (now s).
    rewrite Harmed. repeat split. now rewrite <- Ht.
  - exact I9.
Qed.

Lemma Inv_settle (ts : option Z) (c : nat) (r : Res Cli.StatusResult)
  (s : State) :
  Inv ts s -> Inv ts (settle c r s).
Proof.
  intros I. pose proof I as [I1 I2 I3 I4 I5 I6 I7 I8 I9].
  unfold settle. destruct r as [sr|m]; [destruct (Cli.logged_in sr)|];
    try (constructor; assumption).
  constructor; cbn [now timers pollInterval status_calls timeouts successes
    connects].
  - exact I1.
  - intros t Hin. apply In_clear in Hin. now apply I2.
  - intros t Hin. apply In_clear in Hin. now apply I3.
  - now apply NoDup_clear.
  - intros t Hin. apply In_clear in Hin. now apply I5.
  - intros Hz. apply In_clear. split; [now apply I6|]. now rewrite I1.
  - intros Hne. destruct (I7 Hne) as (H1 & H2 & H3). rewrite H2.
    repeat split; assumption.
  - intros _ t Hin. apply In_clear in Hin. destruct Hin as [Hin Hne].
    destruct (is_poll t) eqn:Hk; [|reflexivity].
    destruct (I2 t Hin Hk) as (Hh & _). congruence.
  - now rewrite I9.
Qed.

Lemma Inv_step (ts : option Z) (s s' : State) (e : Event) :
  step s e = Some s' -> Inv ts s -> Inv ts s'.
Proof.
  destruct e as [ms|h|c r]; simpl.
  - destruct (may_elapse (now s) ms (timers s)) eqn:Hmay; [|discriminate].
    intros [= <-]. now apply Inv_elapse.
  - destruct (ready h (now s) (timers s)) as [t|] eqn:Hr; [|discriminate].
    intros [= <-] I. apply ready_In in Hr. destruct Hr as (Hin & Hh & Hdue).
    unfold fire. destruct (login_kind_cases t) as [Hk|Hk].
    + unfold is_poll in Hk. destruct (callback t) eqn:Hcb; [|discriminate].
      apply (Inv_poll ts t); try assumption. unfold is_poll. now rewrite Hcb.
    + unfold is_timeout in Hk. destruct (callback t) eqn:Hcb; [discriminate|].
      apply Inv_timed_out; try assumption. unfold is_timeout.
      now rewrite Hcb.
  - destruct (existsb (Nat.eqb c) (pending s)); [|discriminate].
    intros [= <-]. apply Inv_settle.
Qed.

Lemma Inv_run (ts : option Z) (tr : list Event) (s s' : State) :
  run s tr = Some s' -> Inv ts s -> Inv ts s'.
Proof.
  revert s. induction tr as [|e tr IH]; simpl; intros s.
  - now intros [= <-].
  - destruct (step s e) as [s1|] eqn:Hstep; [|discriminate].
    intros Hrun I. apply (IH s1 Hrun). exact (Inv_step ts s s1 e Hstep I).
Qed.

Lemma login_invariant (ts : option Z) (P : State -> Prop) :
  P (start ts) ->
  (forall s e s', Inv ts s -> P s -> step s e = Some s' -> P s') ->
  forall tr s, run (start ts) tr = Some s -> P s.
Proof.
  intros Hstart Hstep tr.
  assert (Hgen : forall s s', Inv ts s -> P s -> run s tr = Some s' -> P s').
  { induction tr as [|e tr IH]; simpl; intros s s' I HP.
    - now intros [= <-].
    - destruct (step s e) as [s1|] eqn:E; [|discriminate]. intros Hrun.
      apply (IH s1 s'); try assumption.
      + exact (Inv_step ts s s1 e E I).
      + exact (Hstep s e s1 I HP E). }
  intros s Hrun. exact (Hgen (start ts) s (Inv_start ts) Hstart Hrun).
Qed.

Lemma In_rearm_image {C : Type} (h : nat) (now : Z) (tbl : Table C)
  (t : Timer C) (ms : Z) :
  In t tbl -> handle t = h -> repeat t = Some ms ->
  In {| handle := handle t; callback := callback t; due := now + ms;
        repeat := repeat t |} (rearm h now tbl).
Proof.
  intros Hin Hh Hrep. unfold rearm. apply in_map_iff. exists t.
  split; [|assumption]. rewrite Hh, Nat.eqb_refl, Hrep. reflexivity.
Qed.

(** Until the first success and until the timeout, the interval is armed. *)
Lemma poll_armed (ts : option Z) (tr : list Event) (s : State) :
  run (start ts) tr = Some s ->
  successes s = 0%nat -> timeouts s = 0%nat ->
  In (poll_timer (status_calls s)) (timers s).
Proof.
  revert tr s.
  apply (login_invariant ts
           (fun s => successes s = 0%nat -> timeouts s = 0%nat ->
                     In (poll_timer (status_calls s)) (timers s))).
  - intros _ _. left. reflexivity.
  - intros s e s1 I HP. destruct e as [ms|h|c r]; cbn [step].
    + destruct (may_elapse (now s) ms (timers s)); [|discriminate].
      intros [= <-]. exact HP.
    + destruct (ready h (now s) (timers s)) as [t|] eqn:Hr; [|discriminate].
      intros [= <-]. apply ready_In in Hr. destruct Hr as (Hin & _ & Hdue).
      unfold fire. destruct (callback t) eqn:Hcb.
      * cbn [poll successes timeouts timers status_calls]. intros Hs Ht.
        specialize (HP Hs Ht).
        assert (Hk : is_poll t = true) by (unfold is_poll; now rewrite Hcb).
        destruct (li_poll ts s I t Hin Hk) as (_ & _ & Hd).
        pose proof (li_due ts s I t Hin) as Hle.
        rewrite (li_handle ts s I).
        pose proof (In_rearm_image 0 (now s) (timers s)
                      (poll_timer (status_calls s)) 3000 HP eq_refl eq_refl)
          as Himg.
        replace (poll_timer (S (status_calls s)))
          with {| handle := handle (poll_timer (status_calls s));
                  callback := callback (poll_timer (status_calls s));
                  due := now s + 3000;
                  repeat := repeat (poll_timer (status_calls s)) |};
          [exact Himg|].
        unfold poll_timer. cbn [handle callback repeat]. f_equal. lia.
      * cbn [timed_out timeouts]. discriminate.
    + destruct (existsb (Nat.eqb c) (pending s)); [|discriminate].
      intros [= <-]. unfold settle.
      destruct r as [sr|m]; [destruct (Cli.logged_in sr)|];
        cbn [successes timeouts timers status_calls];
        [discriminate | exact HP | exact HP].
Qed.

(** Success is signalled by the responses that report the login, and by
    nothing else. *)
Lemma successes_counted (tr : list Event) (s0 s : State) :
  run s0 tr = Some s ->
  successes s
    = (successes s0 + List.length (filter logged_in_response tr))%nat.
Proof.
  revert s0. induction tr as [|e tr IH]; intros s0; cbn [run].
  - intros [= <-]. simpl. lia.
  - destruct (step s0 e) as [s1|] eqn:E; [|discriminate]. intros Hrun.
    rewrite (IH s1 Hrun). cbn [filter].
    destruct e as [ms|h|c r]; cbn [step] in E.
    + destruct (may_elapse (now s0) ms (timers s0)); [|discriminate].
      injection E as <-. cbn [logged_in_response elapse successes]. lia.
    + destruct (ready h (now s0) (timers s0)) as [t|]; [|discriminate].
      injection E as <-. unfold fire.
      destruct (callback t); cbn [logged_in_response poll timed_out
        successes]; lia.
    + destruct (existsb (Nat.eqb c) (pending s0)); [|discriminate].
      injection E as <-. unfold settle, logged_in_response.
      destruct r as [sr|m]; [destruct (Cli.logged_in sr)|];
        cbn [successes List.length]; lia.
Qed.

Lemma remove_call_shorter (c : nat) (l : list nat) :
  existsb (Nat.eqb c) l = true ->
  (List.length (filter (fun c' => negb (Nat.eqb c' c)) l) < List.length l)%nat.
Proof.
  induction l as [|a l IH]; simpl; [discriminate|].
  pose proof (filter_length_le (fun c' => negb (Nat.eqb c' c)) l) as Hle.
  rewrite (Nat.eqb_sym a c).
  destruct (Nat.eqb c a); simpl; [lia|]. intros Hex. specialize (IH Hex). lia.
Qed.

Lemma stopped_step (s s' : State) (e : Event) :
  stopped s -> step s e = Some s' ->
  stopped s' /\ status_calls s' = status_calls s
  /\ (successes s <= successes s')%nat
  /\ (successes s' + List.length (pending s')
      <= successes s + List.length (pending s))%nat.
Proof.
  intros Hstop. destruct e as [ms|h|c r]; simpl.
  - destruct (may_elapse (now s) ms (timers s)); [|discriminate].
    intros [= <-]. simpl. repeat split; [assumption | lia | lia].
  - destruct (ready h (now s) (timers s)) as [t|] eqn:Hr; [|discriminate].
    intros [= <-]. apply ready_In in Hr. destruct Hr as (Hin & _ & _).
    specialize (Hstop t Hin) as Hk. unfold fire. unfold is_poll in Hk.
    destruct (callback t); [discriminate|]. simpl.
    repeat split; try lia.
    intros t' Hin'. apply In_clear in Hin'. destruct Hin' as [Hin' _].
    apply In_clear in Hin'. now apply Hstop.
  - destruct (existsb (Nat.eqb c) (pending s)) eqn:Hex; [|discriminate].
    intros [= <-]. apply remove_call_shorter in Hex. unfold settle.
    destruct r as [sr|m]; [destruct (Cli.logged_in sr)|]; simpl;
      repeat split; try assumption; try lia.
    intros t Hin. apply In_clear in Hin. now apply Hstop.
Qed.

Lemma stopped_run (tr : list Event) (s s' : State) :
  stopped s -> run s tr = Some s' ->
  stopped s' /\ status_calls s' = status_calls s
  /\ (successes s <= successes s')%nat
  /\ (successes s' + List.length (pending s')
      <= successes s + List.length (pending s))%nat.
Proof.
  revert s. induction tr as [|e tr IH]; simpl; intros s Hstop.
  - intros [= <-]. repeat split; [assumption | lia | lia].
  - destruct (step s e) as [s1|] eqn:Hstep; [|discriminate]. intros Hrun.
    destruct (stopped_step s s1 e Hstop Hstep) as (H1 & H2 & H3 & H4).
    destruct (IH s1 H1 Hrun) as (H1' & H2' & H3' & H4').
    repeat split; [assumption | lia | lia | lia].
Qed.

(** C2, as stated, fails, twice.  With [timeout_seconds] 30 and the third
    poll, at 9 s, reporting [logged_in], the timeout timer is still armed;
    the clock cannot pass 30 s without it, and it fires there.  And with two
    polls in flight at once, both answered with [logged_in], success is
    signalled twice. *)
Lemma login_timeout_fires_after_success :
  let s9 := Sample.login_after (Some 30) Sample.logs_in_at_third_poll in
  let s30 := Sample.login_after (Some 30)
               (Sample.logs_in_at_third_poll ++ [Elapse 21000; Fire 1]) in
  let twice := Sample.login_after (Some 30) Sample.two_logins_in_flight in
  run (start (Some 30)) Sample.logs_in_at_third_poll = Some s9
  /\ now s9 = 9000 /\ successes s9 = 1%nat /\ status_calls s9 = 3%nat
  /\ timers s9 = [timeout_timer (Some 30)]
  /\ step s9 (Elapse 21001) = None
  /\ run s9 [Elapse 21000; Fire 1] = Some s30
  /\ now s30 = 30000 /\ timeouts s30 = 1%nat
  /\ run (start (Some 30)) Sample.two_logins_in_flight = Some twice
  /\ status_calls twice = 2%nat /\ successes twice = 2%nat
  /\ connects twice = 2%nat.
Proof. vm_compute. repeat split. Qed.

(** C2, amended. The login handler starts the poller when the login result
    carries a non-empty [auth_url] and opening it has resolved, and not
    otherwise; [timeout_seconds] is 600 when the result has none.  Along
    every run of the poller: until the first success and until the timeout
    the interval timer is armed, with period 3000 ms, and firing makes one
    status call, the n-th at 3000 n ms; success is signalled once for each
    response that reports [logged_in] true, no more and no less, each time
    with one call of [usageStream.connect()]; the first of them cancels the
    interval timer, and from a state without the interval timer no further
    status call is made; so success is signalled exactly once when the call
    that reports it first is the only one in flight.  The timeout timer is
    never cancelled: until it has fired it is armed, due at
    [timeout_seconds * 1000] ms (a delay below 1 or above 2^31-1 counts as
    1), the clock cannot pass that time without it, and it fires there
    whether or not the login has succeeded.  Once it has fired, no timer is
    left, polling has stopped and nothing starts it again. *)
Theorem login_poller_lifecycle (timeout_seconds : option Z)
  (tr : list Event) (s : State) :
  run (start timeout_seconds) tr = Some s ->
  start None = start (Some 600)
  /\ (forall (loginResult : Cli.LoginResult) (url : string) (b : bool),
         Cli.auth_url loginResult = Some url -> truthy url = true ->
         login_resolved loginResult (Ok b)
           = Some (start (Cli.timeout_seconds loginResult)))
  /\ (forall (loginResult : Cli.LoginResult) (m : string),
         login_resolved loginResult (Throw m) = None)
  /\ (forall (loginResult : Cli.LoginResult) (opened : Res bool),
         Cli.auth_url loginResult = None
         \/ Cli.auth_url loginResult = Some "" ->
         login_resolved loginResult opened = None)
  /\ (forall t : Timer Callback,
         In t (timers s) -> is_poll t = true ->
         handle t = pollInterval s /\ repeat t = Some 3000
         /\ due t = 3000 * (Z.of_nat (status_calls s) + 1))
  /\ (successes s = 0%nat -> timeouts s = 0%nat ->
      In (poll_timer (status_calls s)) (timers s)
      /\ now s <= 3000 * (Z.of_nat (status_calls s) + 1)
      /\ step s (Fire 0)
         = (if 3000 * (Z.of_nat (status_calls s) + 1) <=? now s
            then Some (poll s) else None)
      /\ status_calls (poll s) = S (status_calls s)
      /\ pending (poll s) = (pending s ++ [status_calls s])%list)
  /\ successes s = List.length (filter logged_in_response tr)
  /\ (successes s <> 0%nat -> stopped s)
  /\ (timeouts s = 0%nat ->
      In (timeout_timer timeout_seconds) (timers s)
      /\ now s <= timer_delay (timeoutSeconds timeout_seconds * 1000)
      /\ step s (Fire 1)
         = if timer_delay (timeoutSeconds timeout_seconds * 1000) <=? now s
           then Some (timed_out 1 s) else None)
  /\ (timeouts s <> 0%nat ->
      timeouts s = 1%nat /\ timers s = []
      /\ timer_delay (timeoutSeconds timeout_seconds * 1000) <= now s)
  /\ (stopped s ->
      forall (tr' : list Event) (s' : State),
        run s tr' = Some s' ->
        stopped s' /\ status_calls s' = status_calls s
        /\ (successes s <= successes s')%nat
        /\ (successes s' + List.length (pending s')
            <= successes s + List.length (pending s))%nat)
  /\ (forall (c : nat) (statusResult : Cli.StatusResult),
         successes s = 0%nat -> pending s = [c] ->
         Cli.logged_in statusResult = true ->
         forall (tr' : list Event) (s' : State),
           run s (Settle c (Ok statusResult) :: tr') = Some s' ->
           successes s' = 1%nat /\ status_calls s' = status_calls s)
  /\ connects s = successes s.
Proof.
  intros Hrun.
  pose proof (Inv_run timeout_seconds tr _ s Hrun (Inv_start timeout_seconds))
    as I.
  pose proof I as [I1 I2 I3 I4 I5 I6 I7 I8 I9].
  split; [reflexivity|]. split.
  { intros lr url b Hurl Htruthy. unfold login_resolved.
    now rewrite Hurl, Htruthy. }
  split.
  { intros lr m. unfold login_resolved.
    destruct (Cli.auth_url lr) as [url|]; [|reflexivity].
    now destruct (truthy url). }
  split.
  { intros lr opened [Hnone|Hempty]; unfold login_resolved.
    - now rewrite Hnone.
    - now rewrite Hempty. }
  split.
  { intros t Hin Hk. rewrite I1. now apply I2. }
  split.
  { intros Hs Ht.
    pose proof (poll_armed timeout_seconds tr s Hrun Hs Ht) as Hin.
    split; [exact Hin|]. split; [exact (I5 _ Hin)|].
    split; [|split; reflexivity]. cbn [step]. unfold ready.
    rewrite (lookup_unique 0 (timers s) (poll_timer (status_calls s))
               I4 Hin eq_refl).
    change (due (poll_timer (status_calls s)))
      with (3000 * (Z.of_nat (status_calls s) + 1)).
    now destruct (3000 * (Z.of_nat (status_calls s) + 1) <=? now s). }
  split.
  { now rewrite (successes_counted tr _ s Hrun). }
  split; [exact I8|].
  split; [|split; [exact I7|]].
  { intros Hz. pose proof (I6 Hz) as Hin. split; [exact Hin|].
    split; [exact (I5 _ Hin)|]. cbn [step]. unfold ready.
    rewrite (lookup_unique 1 (timers s) (timeout_timer timeout_seconds)
               I4 Hin eq_refl).
    change (due (timeout_timer timeout_seconds))
      with (timer_delay (timeoutSeconds timeout_seconds * 1000)).
    now destruct (timer_delay (timeoutSeconds timeout_seconds * 1000)
                  <=? now s). }
  split; [intros Hstop tr' s'; now apply stopped_run|].
  split; [|exact I9].
  intros c sr Hzero Hpend Hin tr' s'. cbn [run step].
  rewrite Hpend. cbn [existsb]. rewrite Nat.eqb_refl. cbn [orb].
  intros Hrun'.
  pose proof (Inv_settle timeout_seconds c (Ok sr) s I) as I'.
  assert (Hs1 : successes (settle c (Ok sr) s) = 1%nat
                /\ pending (settle c (Ok sr) s) = []
                /\ status_calls (settle c (Ok sr) s) = status_calls s).
  { unfold settle. rewrite Hin, Hpend, Hzero. cbn.
    now rewrite Nat.eqb_refl. }
  destruct Hs1 as (Hsucc & Hnil & Hcalls).
  assert (Hstop : stopped (settle c (Ok sr) s)).
  { refine (li_success _ _ I' _). rewrite Hsucc. discriminate. }
  destruct (stopped_run tr' _ s' Hstop Hrun') as (_ & H2 & H3 & H4).
  rewrite Hsucc, Hnil in *. simpl in H4. split; lia.
Qed.

Lemma login_poller_lifecycle_witness :
  now (Sample.login_after (Some 9) Sample.never_logs_in) = 9000
  /\ status_calls (Sample.login_after (Some 9) Sample.never_logs_in) = 3%nat
  /\ successes (Sample.login_after (Some 9) Sample.never_logs_in) = 0%nat
  /\ timers (Sample.login_after (Some 9) Sample.never_logs_in) = [].
Proof.
  assert (Hrun : run (start (Some 9)) Sample.never_logs_in
                 = Some (Sample.login_after (Some 9) Sample.never_logs_in))
    by (vm_compute; reflexivity).
  destruct (login_poller_lifecycle (Some 9) Sample.never_logs_in _ Hrun)
    as (_ & _ & _ & _ & _ & _ & Hcount & _ & _ & Hfired & _).
  split; [vm_compute; reflexivity|]. split; [vm_compute; reflexivity|].
  split; [exact Hcount|].
  apply Hfired. vm_compute. discriminate.
Defined.

End LoginFacts.

(** * Further properties of the process bridge *)
Section CliMore.
Import Cli.

Lemma includes_cons (needle : string) (c : ascii) (rest : string) :
  includes needle (String c rest)
    = if String.prefix needle (String c rest) then true
      else includes needle rest.
Proof. reflexivity. Qed.

Lemma includes_app (needle a b : string) :
  includes needle b = true -> includes needle (a ++ b) = true.
Proof.
  intros Hb. induction a as [|c a IH]; [exact Hb|].
  change (String c a ++ b) with (String c (a ++ b)).
  rewrite includes_cons, IH.
  now destruct (String.prefix needle (String c (a ++ b))).
Qed.

Lemma bundled_is_not_bare (h : Host) (context : ExtensionContext)
  (bundledBin : string) :
  getBundledCliPath h context = Ok bundledBin ->
  (bundledBin =? "costa")%string = false.
Proof.
  unfold getBundledCliPath.
  destruct (extRoot_of context) as [root|]; [|discriminate].
  destruct (negb (truthy root)); [discriminate|].
  assert (Hlong : forall d n : string,
             (path_join h [root; "res"; "bin"; d; n] =? "costa")%string
             = false).
  { intros d n. apply eqb_length_neq. rewrite path_join_5.
    rewrite !length_append. simpl. lia. }
  destruct (platform h =? "darwin")%string; [intros [= <-]; apply Hlong|].
  destruct (platform h =? "win32")%string; [intros [= <-]; apply Hlong|].
  destruct (arch h =? "arm64")%string; intros [= <-]; apply Hlong.
Qed.

(** X1. A context that provides no extension root, or an empty one, makes
    every operation of the façade reject with the root-not-available
    message before anything is executed: nothing is spawned and no mode is
    changed.  An empty [extensionPath] counts as given, so it hides the path
    [extensionUri.fsPath] would have supplied. *)
Theorem facade_without_extension_root (h : Host) (st : State)
  (context : ExtensionContext) :
  extensionContext st = Some context ->
  extRoot_of context = None \/ extRoot_of context = Some "" ->
  login h st = (Throw "extension root path not available", st)
  /\ status h st = (Throw "extension root path not available", st)
  /\ token h st = (Throw "extension root path not available", st)
  /\ logout h st = (Throw "extension root path not available", st)
  /\ (forall p : string,
         extRoot_of {| extensionPath := Some "";
                       extensionUri := Some {| fsPath := Some p |} |}
         = Some "").
Proof.
  intros Hctx Hroot.
  assert (Hpath : getBundledCliPath h context
                  = Throw "extension root path not available").
  { unfold getBundledCliPath. destruct Hroot as [-> | ->]; reflexivity. }
  unfold login, status, token, logout, parsed, run.
  rewrite Hctx, Hpath. repeat split.
Qed.

Lemma facade_without_extension_root_witness :
  status (Sample.host "linux" "x64" true Sample.failing)
    (setContext initial
       {| extensionPath := Some "";
          extensionUri := Some {| fsPath := Some "/ext" |} |})
  = (Throw "extension root path not available",
     setContext initial
       {| extensionPath := Some "";
          extensionUri := Some {| fsPath := Some "/ext" |} |}).
Proof.
  exact (proj1 (proj2
           (facade_without_extension_root
              (Sample.host "linux" "x64" true Sample.failing)
              (setContext initial
                 {| extensionPath := Some "";
                    extensionUri := Some {| fsPath := Some "/ext" |} |})
              _ eq_refl (or_intror eq_refl)))).
Defined.

(** X2. When the bundled binary exists, a failed execution is never taken
    for a missing CLI, not even when the error of the runtime mentions
    [ENOENT]: the bundled path is never the bare name, so [run] rejects with
    the text of the error followed by the trimmed stderr, or with the text
    alone when stderr is empty or white space. *)
Theorem bundled_failure_is_never_not_found (h : Host) (st : State)
  (context : ExtensionContext) (bundledBin : string) (args : list string)
  (err : ExecError) (out errtxt : string) :
  extensionContext st = Some context ->
  getBundledCliPath h context = Ok bundledBin ->
  existsSync h bundledBin = true ->
  execFile h bundledBin args 15000 = ExecFail err out errtxt ->
  fst (run h st args)
    = Throw (if truthy (trim errtxt)
             then String_of_error err ++ newline ++ trim errtxt
             else String_of_error err).
Proof.
  intros Hctx Hpath Hex Hfail.
  destruct (run_spawns h st context bundledBin args Hctx Hpath) as [Hrun _].
  unfold binToUse in Hrun. rewrite Hex in Hrun. rewrite Hrun, Hfail.
  unfold classify. rewrite (bundled_is_not_bare h context bundledBin Hpath).
  now rewrite andb_false_r.
Qed.

Lemma bundled_failure_is_never_not_found_witness :
  fst (run (Sample.host "linux" "x64" true Sample.missing)
         (setContext initial Sample.context) Sample.status_args)
    = Throw "Error: spawn /ext/res/bin/linux-x64/costa ENOENT"
  /\ fst (run (Sample.host "linux" "x64" true Sample.muttering)
            (setContext initial Sample.context) Sample.status_args)
     = Throw ("Error: Command failed: "
                ++ "/ext/res/bin/linux-x64/costa status --format json"
                ++ newline ++ child_stderr Sample.muttering).
Proof.
  split.
  - exact (bundled_failure_is_never_not_found
             (Sample.host "linux" "x64" true Sample.missing)
             (setContext initial Sample.context) Sample.context
             "/ext/res/bin/linux-x64/costa" Sample.status_args
             _ "" "" eq_refl eq_refl eq_refl eq_refl).
  - exact (bundled_failure_is_never_not_found
             (Sample.host "linux" "x64" true Sample.muttering)
             (setContext initial Sample.context) Sample.context
             "/ext/res/bin/linux-x64/costa" Sample.status_args
             _ "" (child_stderr Sample.muttering)
             eq_refl eq_refl eq_refl eq_refl).
Defined.

(** X3. On the fallback to the bare name, a [costa] that was found and ran
    but failed (killed at the timeout, or exit code other than 0) with
    [ENOENT] anywhere in its stderr is reported as a missing CLI: the
    message of the runtime's error ends with the captured stderr, and the
    test looks for [ENOENT] in the whole message. *)
Theorem fallback_failure_mentioning_enoent_reads_not_found (h : Host)
  (st : State) (context : ExtensionContext) (bundledBin : string)
  (args : list string) (c : Child) :
  extensionContext st = Some context ->
  getBundledCliPath h context = Ok bundledBin ->
  existsSync h bundledBin = false ->
  execFile h "costa" args 15000 = node_execFile c "costa" args 15000 ->
  spawn_errno c = None ->
  outlives 15000 c = true \/ exit_code c <> 0 ->
  includes "ENOENT" (child_stderr c) = true ->
  fst (run h st args) = Throw not_found_message.
Proof.
  intros Hctx Hpath Hex Hnode Herrno Hfailed Hinc.
  destruct (run_spawns h st context bundledBin args Hctx Hpath) as [Hrun _].
  unfold binToUse in Hrun. rewrite Hex in Hrun. rewrite Hrun, Hnode.
  assert (Hmsg : includes "ENOENT"
                   ("Command failed: " ++ command_line "costa" args
                      ++ newline ++ child_stderr c) = true).
  { now repeat apply includes_app. }
  unfold node_execFile. rewrite Herrno.
  destruct (outlives 15000 c) eqn:Hout.
  - unfold classify. cbn [err_message]. now rewrite Hmsg.
  - destruct Hfailed as [Habs|Hcode]; [discriminate|].
    apply Z.eqb_neq in Hcode. rewrite Hcode.
    unfold classify. cbn [err_message]. now rewrite Hmsg.
Qed.

Lemma fallback_failure_mentioning_enoent_reads_not_found_witness :
  fst (run (Sample.host "linux" "x64" false Sample.complaining)
         (setContext initial Sample.context) Sample.status_args)
    = Throw not_found_message.
Proof.
  apply (fallback_failure_mentioning_enoent_reads_not_found
           (Sample.host "linux" "x64" false Sample.complaining)
           (setContext initial Sample.context) Sample.context
           "/ext/res/bin/linux-x64/costa" Sample.status_args
           Sample.complaining); try reflexivity.
  right. discriminate.
Defined.

Lemma snd_parsed {A : Type} (parse : string -> Res A)
  (r : Res BridgeResult * State) :
  snd (parsed parse r) = snd r.
Proof. unfold parsed. now destruct (fst r). Qed.

Lemma perform_run (h : Host) (st : State) (o : Facade.Op) :
  Facade.perform h st o = snd (run h st (Facade.op_args o)).
Proof. destruct o; apply snd_parsed. Qed.

Lemma perform_spawns (h : Host) (st : State) (context : ExtensionContext)
  (bundledBin : string) (o : Facade.Op) :
  extensionContext st = Some context ->
  getBundledCliPath h context = Ok bundledBin ->
  extensionContext (Facade.perform h st o) = Some context
  /\ spawned (Facade.perform h st o)
     = Facade.spawn_of (binToUse h bundledBin) o :: spawned st.
Proof.
  intros Hctx Hpath. rewrite perform_run. unfold run.
  rewrite Hctx, Hpath. split; reflexivity.
Qed.

(** X4. Once a context with an extension root is set, it stays set through
    any sequence of façade operations, and each operation starts exactly
    one process: the same binary every time, the argument vector of the
    operation unchanged, and the timeout of 15000 ms; the processes are
    logged latest first. *)
Theorem facade_sequence_spawns_one_process_each (h : Host)
  (context : ExtensionContext) (bundledBin : string)
  (ops : list Facade.Op) (st : State) :
  extensionContext st = Some context ->
  getBundledCliPath h context = Ok bundledBin ->
  extensionContext (Facade.perform_all h st ops) = Some context
  /\ spawned (Facade.perform_all h st ops)
     = (rev (map (Facade.spawn_of (binToUse h bundledBin)) ops)
          ++ spawned st)%list.
Proof.
  intros Hctx Hpath. revert st Hctx.
  induction ops as [|o ops IH]; intros st Hctx; [now split|].
  destruct (perform_spawns h st context bundledBin o Hctx Hpath)
    as [Hctx' Hsp].
  destruct (IH (Facade.perform h st o) Hctx') as [IH1 IH2].
  unfold Facade.perform_all in *. cbn [fold_left map rev].
  split; [exact IH1|]. rewrite IH2, Hsp, <- app_assoc. reflexivity.
Qed.

Lemma facade_sequence_spawns_one_process_each_witness :
  spawned (Facade.perform_all
             (Sample.host "darwin" "arm64" true Sample.failing)
             (setContext initial Sample.context)
             [Facade.OpLogin; Facade.OpStatus; Facade.OpLogout])
  = [Facade.spawn_of "/ext/res/bin/darwin-universal/costa" Facade.OpLogout;
     Facade.spawn_of "/ext/res/bin/darwin-universal/costa" Facade.OpStatus;
     Facade.spawn_of "/ext/res/bin/darwin-universal/costa" Facade.OpLogin].
Proof.
  exact (proj2 (facade_sequence_spawns_one_process_each
                  (Sample.host "darwin" "arm64" true Sample.failing)
                  Sample.context "/ext/res/bin/darwin-universal/costa"
                  [Facade.OpLogin; Facade.OpStatus; Facade.OpLogout]
                  (setContext initial Sample.context) eq_refl eq_refl)).
Defined.

Lemma perform_chmods (h : Host) (st : State) (o : Facade.Op)
  (e : string * Z) :
  In e (chmods (Facade.perform h st o)) ->
  In e (chmods st)
  \/ (snd e = 493 /\ existsSync h (fst e) = true
      /\ (platform h =? "win32")%string = false
      /\ (fst e =? "costa")%string = false).
Proof.
  rewrite perform_run. unfold run.
  destruct (extensionContext st) as [context|]; [|now left].
  destruct (getBundledCliPath h context) as [bundledBin|m] eqn:Hpath;
    [|now left].
  cbn [snd chmods]. unfold binToUse.
  destruct (existsSync h bundledBin) eqn:Hex; [|now left].
  destruct (platform h =? "win32")%string eqn:Hwin; [now left|].
  cbn [andb negb]. intros [<-|Hin]; [right|now left].
  cbn [fst snd]. repeat split; try assumption.
  exact (bundled_is_not_bare h context bundledBin Hpath).
Qed.

(** X5. Whatever operations of the façade run, every mode change they make
    sets 0o755 on a file [existsSync] has confirmed, on a platform other
    than Windows, and never on the bare name of the fallback. *)
Theorem chmod_only_on_existing_bundled_binary (h : Host)
  (ops : list Facade.Op) (st : State) (e : string * Z) :
  In e (chmods (Facade.perform_all h st ops)) ->
  In e (chmods st)
  \/ (snd e = 493 /\ existsSync h (fst e) = true
      /\ (platform h =? "win32")%string = false
      /\ (fst e =? "costa")%string = false).
Proof.
  revert st. induction ops as [|o ops IH]; intros st; [now left|].
  unfold Facade.perform_all in *. cbn [fold_left]. intros Hin.
  destruct (IH _ Hin) as [Hold|Hnew]; [|now right].
  now apply (perform_chmods h st o).
Qed.

Lemma chmod_only_on_existing_bundled_binary_witness :
  chmods (Facade.perform_all
            (Sample.host "win32" "x64" true Sample.failing)
            (setContext initial Sample.context)
            [Facade.OpStatus; Facade.OpToken]) = [].
Proof.
  destruct (chmods (Facade.perform_all
                      (Sample.host "win32" "x64" true Sample.failing)
                      (setContext initial Sample.context)
                      [Facade.OpStatus; Facade.OpToken]))
    as [|e rest] eqn:E; [reflexivity|].
  destruct (chmod_only_on_existing_bundled_binary
              (Sample.host "win32" "x64" true Sample.failing)
              [Facade.OpStatus; Facade.OpToken]
              (setContext initial Sample.context) e)
    as [Hold|(_ & _ & Hwin & _)].
  - rewrite E. now left.
  - elim Hold.
  - discriminate Hwin.
Defined.

Lemma append_inj_l (a b c : string) : a ++ b = a ++ c -> b = c.
Proof.
  induction a as [|x a IH]; simpl; [trivial|]. intros [= H]. now apply IH.
Qed.

(** X6. The path resolution of the older [index.ts] agrees with that of
    [cli.ts] on macOS, on Windows and on every architecture other than
    ARM64; on Linux ARM64 the older one still names the x64 binary, which is
    not the path [cli.ts] resolves. *)
Theorem older_resolution_differs_on_linux_arm64_only (h : Host)
  (context : ExtensionContext) :
  ((platform h =? "darwin")%string || (platform h =? "win32")%string
   || negb (arch h =? "arm64")%string = true ->
   Index.getBundledCliPath h context = getBundledCliPath h context)
  /\ (forall root : string,
         extRoot_of context = Some root -> truthy root = true ->
         (platform h =? "darwin")%string = false ->
         (platform h =? "win32")%string = false ->
         (arch h =? "arm64")%string = true ->
         Index.getBundledCliPath h context
           = Ok (path_join h [root; "res"; "bin"; "linux-x64"; "costa"])
         /\ getBundledCliPath h context
            = Ok (path_join h [root; "res"; "bin"; "linux-arm64"; "costa"])
         /\ Index.getBundledCliPath h context <> getBundledCliPath h context).
Proof.
  split.
  - unfold Index.getBundledCliPath, getBundledCliPath.
    destruct (extRoot_of context) as [root|]; [|reflexivity].
    destruct (negb (truthy root)); [reflexivity|].
    destruct (platform h =? "darwin")%string; [reflexivity|].
    destruct (platform h =? "win32")%string; [reflexivity|].
    destruct (arch h =? "arm64")%string; [discriminate | reflexivity].
  - intros root Hroot Htruthy Hd Hw Ha.
    unfold Index.getBundledCliPath, getBundledCliPath.
    rewrite Hroot, Htruthy, Hd, Hw, Ha. cbn [negb].
    repeat split. intros [= Heq]. rewrite !path_join_5 in Heq.
    apply append_inj_l, append_inj_l in Heq. unfold path_sep in Heq.
    rewrite Hw in Heq. discriminate Heq.
Qed.

Lemma older_resolution_differs_on_linux_arm64_only_witness :
  Index.getBundledCliPath (Sample.host "linux" "arm64" true Sample.failing)
    Sample.context
  = Ok "/ext/res/bin/linux-x64/costa".
Proof.
  exact (proj1 (proj2 (older_resolution_differs_on_linux_arm64_only
                         (Sample.host "linux" "arm64" true Sample.failing)
                         Sample.context)
                  "/ext" eq_refl eq_refl eq_refl eq_refl eq_refl)).
Defined.

(** X7. The path the test of the embedded binary expects, built from the
    working directory, is the path [cli.ts] resolves when the extension root
    is that directory, on every platform and architecture. *)
Theorem test_expects_the_resolved_path (h : Host) (cwd : string) :
  truthy cwd = true ->
  getBundledCliPath h {| extensionPath := Some cwd; extensionUri := None |}
    = Ok (Index.expectedBundledBinaryPath h cwd).
Proof.
  intros Htruthy. unfold getBundledCliPath, Index.expectedBundledBinaryPath.
  cbn [extRoot_of extensionPath]. rewrite Htruthy. cbn [negb].
  destruct (platform h =? "darwin")%string; [reflexivity|].
  destruct (platform h =? "win32")%string; [reflexivity|].
  destruct (arch h =? "arm64")%string; reflexivity.
Qed.

Lemma test_expects_the_resolved_path_witness :
  getBundledCliPath (Sample.host "win32" "x64" true Sample.failing)
    {| extensionPath := Some "C:\repo"; extensionUri := None |}
  = Ok "C:\repo\res\bin\win32-x64\costa.exe".
Proof.
  exact (test_expects_the_resolved_path
           (Sample.host "win32" "x64" true Sample.failing)
           "C:\repo" eq_refl).
Defined.

Lemma older_path_agrees (h : Host) (context : ExtensionContext) :
  (platform h =? "darwin")%string || (platform h =? "win32")%string
    || negb (arch h =? "arm64")%string = true ->
  Index.getBundledCliPath h context = getBundledCliPath h context.
Proof.
  intros Hcase. unfold Index.getBundledCliPath, getBundledCliPath.
  destruct (extRoot_of context) as [root|]; [|reflexivity].
  destruct (negb (truthy root)); [reflexivity|].
  destruct (platform h =? "darwin")%string; [reflexivity|].
  destruct (platform h =? "win32")%string; [reflexivity|].
  destruct (arch h =? "arm64")%string; [discriminate Hcase|reflexivity].
Qed.

Lemma older_path_on_linux_arm64 (h : Host) (context : ExtensionContext)
  (bundledBin : string) :
  (platform h =? "darwin")%string || (platform h =? "win32")%string
    || negb (arch h =? "arm64")%string = false ->
  Index.getBundledCliPath h context = Ok bundledBin ->
  (bundledBin =? "costa")%string = false
  /\ exists newer : string,
       getBundledCliPath h context = Ok newer /\ newer <> bundledBin.
Proof.
  intros Hcase Hold.
  apply orb_false_elim in Hcase as [Hcase Harm].
  apply orb_false_elim in Hcase as [Hd Hw].
  apply negb_false_iff in Harm.
  unfold Index.getBundledCliPath in Hold. unfold getBundledCliPath.
  destruct (extRoot_of context) as [root|]; [|discriminate].
  destruct (negb (truthy root)); [discriminate|].
  rewrite Hd, Hw in Hold. rewrite Hd, Hw, Harm. injection Hold as <-.
  split.
  - apply eqb_length_neq. rewrite path_join_5, !length_append.
    simpl. lia.
  - eexists. split; [reflexivity|].
    rewrite !path_join_5. intros Heq.
    apply append_inj_l, append_inj_l in Heq. unfold path_sep in Heq.
    rewrite Hw in Heq. discriminate Heq.
Qed.

(** X8. The runner of the older [index.ts] has no fallback: when the bundled
    binary is absent it rejects with the path it looked at and starts
    nothing.  When the binary exists, then on macOS, on Windows and on every
    architecture other than ARM64 it does exactly what [run] of [cli.ts]
    does with the same context: same result, same process, same mode
    change.  On Linux ARM64 it executes the x64 binary it found, and that is
    not the file [run] of [cli.ts] executes. *)
Theorem older_runner_has_no_fallback (h : Host) (st : State)
  (context : ExtensionContext) (bundledBin : string) (args : list string) :
  Index.getBundledCliPath h context = Ok bundledBin ->
  (existsSync h bundledBin = false ->
   Index.runBundledCli h st context args
     = (Throw ("costa CLI not found at " ++ bundledBin), st))
  /\ (existsSync h bundledBin = true ->
      extensionContext st = Some context ->
      ((platform h =? "darwin")%string || (platform h =? "win32")%string
         || negb (arch h =? "arm64")%string = true ->
       Index.runBundledCli h st context args = run h st args)
      /\ ((platform h =? "darwin")%string || (platform h =? "win32")%string
            || negb (arch h =? "arm64")%string = false ->
          spawned (snd (Index.runBundledCli h st context args))
            = {| spawn_file := bundledBin; spawn_args := args;
                 spawn_timeout := 15000 |} :: spawned st
          /\ exists bin : string,
               bin <> bundledBin
               /\ spawned (snd (run h st args))
                  = {| spawn_file := bin; spawn_args := args;
                       spawn_timeout := 15000 |} :: spawned st)).
Proof.
  intros Hold. split.
  - intros Hex. unfold Index.runBundledCli. now rewrite Hold, Hex.
  - intros Hex Hctx. split.
    + intros Hcase.
      assert (Hpath : getBundledCliPath h context = Ok bundledBin)
        by now rewrite <- (older_path_agrees h context Hcase).
      unfold Index.runBundledCli, run, binToUse.
      rewrite Hold, Hctx, Hpath, Hex. cbn [negb andb]. f_equal.
      unfold classify.
      destruct (execFile h bundledBin args 15000)
        as [out errtxt|err out errtxt]; [reflexivity|].
      rewrite (bundled_is_not_bare h context bundledBin Hpath), andb_false_r.
      reflexivity.
    + intros Hcase. split.
      * unfold Index.runBundledCli. now rewrite Hold, Hex.
      * destruct (older_path_on_linux_arm64 h context bundledBin Hcase Hold)
          as (Hbare & newer & Hpath & Hdiff).
        exists (binToUse h newer). split.
        -- unfold binToUse. destruct (existsSync h newer); [exact Hdiff|].
           intros <-. discriminate Hbare.
        -- exact (proj2 (run_spawns h st context newer args Hctx Hpath)).
Qed.

Lemma older_runner_has_no_fallback_witness :
  Index.runBundledCli (Sample.host "linux" "x64" false Sample.failing)
    initial Sample.context ["--version"]
  = (Throw "costa CLI not found at /ext/res/bin/linux-x64/costa", initial)
  /\ spawned (snd (Index.runBundledCli
                     (Sample.host "linux" "arm64" true Sample.failing)
                     (setContext initial Sample.context) Sample.context
                     ["--version"]))
     = [{| spawn_file := "/ext/res/bin/linux-x64/costa";
           spawn_args := ["--version"]; spawn_timeout := 15000 |}].
Proof.
  split.
  - exact (proj1 (older_runner_has_no_fallback
                    (Sample.host "linux" "x64" false Sample.failing)
                    initial Sample.context "/ext/res/bin/linux-x64/costa"
                    ["--version"] eq_refl) eq_refl).
  - exact (proj1 (proj2 (proj2 (older_runner_has_no_fallback
                                  (Sample.host "linux" "arm64" true
                                     Sample.failing)
                                  (setContext initial Sample.context)
                                  Sample.context
                                  "/ext/res/bin/linux-x64/costa"
                                  ["--version"] eq_refl)
                           eq_refl eq_refl) eq_refl)).
Defined.

End CliMore.

(** * Further properties of the usage stream supervisor *)
Section UsageMore.
Import Timers UsageStream UsageInv UsageRuns.

Lemma run_invariant (P : State -> Prop) :
  (forall s e s', TimersInv s -> CallsInv s -> P s ->
                  step s e = Some s' -> P s') ->
  forall tr s s', TimersInv s -> CallsInv s -> P s ->
                  run s tr = Some s' -> P s'.
Proof.
  intros Hstep tr. induction tr as [|e tr IH]; simpl; intros s s' IT IC HP.
  - now intros [= <-].
  - destruct (step s e) as [s1|] eqn:E; [|discriminate]. intros Hrun.
    apply (IH s1 s'); try assumption.
    + exact (TimersInv_step s s1 e E IT).
    + exact (CallsInv_step s s1 e E IC).
    + exact (Hstep s e s1 IT IC HP E).
Qed.

Lemma reachable_invariant (P : State -> Prop) :
  P initial ->
  (forall s e s', TimersInv s -> CallsInv s -> P s ->
                  step s e = Some s' -> P s') ->
  forall tr s, run initial tr = Some s -> P s.
Proof.
  intros Hinit Hstep tr s Hrun.
  exact (run_invariant P Hstep tr initial s TimersInv_initial
           CallsInv_initial Hinit Hrun).
Qed.

Lemma run_app (tr1 tr2 : list Event) (s : State) :
  run s (tr1 ++ tr2)
    = match run s tr1 with
      | Some s1 => run s1 tr2
      | None => None
      end.
Proof.
  revert s. induction tr1 as [|e tr1 IH]; intros s; [reflexivity|].
  simpl. destruct (step s e); [apply IH | reflexivity].
Qed.

(** What one step adds to the events emitted. *)
Lemma emitted_step (s s' : State) (e : Event) :
  step s e = Some s' ->
  emitted s' = emitted s
  \/ exists c r, e = Settle c r
       /\ emitted s' = (emitted s ++ snd (fetchUsageData_settled r))%list.
Proof.
  destruct e as [| | |ms|h|c r]; simpl.
  - intros [= <-]. left. unfold connect. now destruct (isConnecting s).
  - intros [= <-]. now left.
  - intros [= <-]. now left.
  - destruct (may_elapse (now s) ms (timers s)); [|discriminate].
    intros [= <-]. now left.
  - destruct (ready h (now s) (timers s)) as [t|]; [|discriminate].
    intros [= <-]. left. unfold fire. destruct (callback t); [reflexivity|].
    unfold connect. cbn [isConnecting in_callback].
    now destruct (isConnecting s).
  - destruct (find _ (pending s)) as [p|]; [|discriminate].
    intros [= <-]. right. exists c, r. split; [reflexivity|].
    apply emitted_settle.
Qed.

Lemma well_formed_usageData (statusResult : Cli.StatusResult) :
  well_formed (usageData_of statusResult).
Proof.
  unfold well_formed, usageData_of. cbn [context_length points total_points].
  split; [reflexivity|].
  destruct (Cli.points statusResult), (Cli.total_points statusResult);
    repeat split; discriminate.
Qed.

Lemma well_formed_settled (r : Res Cli.StatusResult) :
  Forall well_formed (snd (fetchUsageData_settled r)).
Proof.
  unfold fetchUsageData_settled. destruct r as [sr|m]; [|constructor].
  destruct (negb (Cli.logged_in sr)); [constructor|].
  destruct (has_usage_data (usageData_of sr)); [|constructor].
  constructor; [apply well_formed_usageData | constructor].
Qed.

(** X9. Every "usage" event the supervisor has emitted, along any run,
    carries [context_length] equal to the placeholder ["-"], and [points]
    and [total_points] that are neither undefined nor null: a listener never
    sees a missing field, whatever the status calls returned. *)
Theorem emitted_snapshots_are_well_formed (tr : list Event) (s : State) :
  run initial tr = Some s -> Forall well_formed (emitted s).
Proof.
  apply (reachable_invariant (fun s => Forall well_formed (emitted s)));
    [constructor|].
  intros s0 e s1 _ _ Hwf Hstep.
  destruct (emitted_step s0 s1 e Hstep) as [->|(c & r & _ & ->)];
    [assumption|].
  apply Forall_app. split; [assumption | apply well_formed_settled].
Qed.

Lemma emitted_snapshots_are_well_formed_witness :
  Forall well_formed (emitted (Sample.usage_after Sample.null_points)).
Proof.
  assert (Hrun : run initial Sample.null_points
                 = Some (Sample.usage_after Sample.null_points))
    by (vm_compute; reflexivity).
  exact (emitted_snapshots_are_well_formed Sample.null_points _ Hrun).
Defined.

Lemma filter_drops {A : Type} (q : A -> bool) (l : list A) (a : A) :
  In a l -> q a = false ->
  (List.length (filter q l) < List.length l)%nat.
Proof.
  induction l as [|b l IH]; simpl; [tauto|].
  pose proof (filter_length_le q l) as Hle.
  intros [->|Hin] Hq.
  - rewrite Hq. lia.
  - specialize (IH Hin Hq). destruct (q b); simpl; lia.
Qed.

Lemma settled_at_most_one (r : Res Cli.StatusResult) :
  (List.length (snd (fetchUsageData_settled r)) <= 1)%nat.
Proof.
  unfold fetchUsageData_settled. destruct r as [sr|m]; [|simpl; lia].
  destruct (negb (Cli.logged_in sr)); [simpl; lia|].
  destruct (has_usage_data (usageData_of sr)); simpl; lia.
Qed.

Lemma status_calls_step (s s' : State) (e : Event) :
  step s e = Some s' ->
  (status_calls s' + List.length (pending s)
   = status_calls s + List.length (pending s')
   \/ exists p r, e = Settle (call_id p) r /\ In p (pending s)
        /\ s' = settle p r s)%nat.
Proof.
  destruct e as [| | |ms|h|c r]; simpl.
  - intros [= <-]. left. unfold connect.
    destruct (isConnecting s); [reflexivity|].
    cbn [status_calls pending fetchUsageData set_isConnecting].
    rewrite length_app. simpl. lia.
  - intros [= <-]. now left.
  - intros [= <-]. left. cbn [status_calls pending fetchUsageData].
    rewrite length_app. simpl. lia.
  - destruct (may_elapse (now s) ms (timers s)); [|discriminate].
    intros [= <-]. now left.
  - destruct (ready h (now s) (timers s)) as [t|]; [|discriminate].
    intros [= <-]. left. unfold fire. destruct (callback t).
    + cbn [status_calls pending fetchUsageData in_callback].
      rewrite length_app. simpl. lia.
    + unfold connect. cbn [isConnecting in_callback].
      destruct (isConnecting s); [reflexivity|].
      cbn [status_calls pending fetchUsageData set_isConnecting in_callback].
      rewrite length_app. simpl. lia.
  - destruct (find _ (pending s)) as [p|] eqn:Hf; [|discriminate].
    intros [= <-]. right. apply find_call in Hf. destruct Hf as [Hin <-].
    now exists p, r.
Qed.

(** X10. Each "usage" event comes from a status call of its own that has
    settled: in every reachable state the events emitted and the calls still
    pending together number no more than the status calls made.  Events are
    only ever appended: a further run keeps what was emitted as a prefix. *)
Theorem every_event_has_its_status_call (tr : list Event) (s : State) :
  run initial tr = Some s ->
  (List.length (emitted s) + List.length (pending s) <= status_calls s)%nat
  /\ (forall (tr' : list Event) (s' : State),
         run s tr' = Some s' ->
         exists more : list UsageData,
           emitted s' = (emitted s ++ more)%list).
Proof.
  intros Hrun. split.
  - revert tr s Hrun.
    apply (reachable_invariant
             (fun s => (List.length (emitted s) + List.length (pending s)
                        <= status_calls s)%nat)); [simpl; lia|].
    intros s0 e s1 _ _ Hle Hstep.
    destruct (status_calls_step s0 s1 e Hstep)
      as [Hcalls|(p & r & -> & Hin & ->)].
    + destruct (emitted_step s0 s1 e Hstep) as [->|(c & r & -> & _)];
        [lia|].
      simpl in Hstep. destruct (find _ (pending s0)) as [p|] eqn:Hf;
        [|discriminate].
      injection Hstep as <-. rewrite pending_settle, status_calls_settle in *.
      apply find_call in Hf. destruct Hf as [Hin _].
      assert (Hq : other_call (call_id p) p = false)
        by (unfold other_call; now rewrite Nat.eqb_refl).
      pose proof (filter_drops _ _ p Hin Hq). lia.
    + rewrite emitted_settle, pending_settle, status_calls_settle, length_app.
      assert (Hq : other_call (call_id p) p = false)
        by (unfold other_call; now rewrite Nat.eqb_refl).
      pose proof (filter_drops _ _ p Hin Hq).
      pose proof (settled_at_most_one r). lia.
  - clear tr Hrun. intros tr'. revert s.
    induction tr' as [|e tr' IH]; simpl; intros s s'.
    + intros [= <-]. exists []. now rewrite app_nil_r.
    + destruct (step s e) as [s1|] eqn:E; [|discriminate]. intros Hrun.
      destruct (IH s1 s' Hrun) as [more Hmore].
      destruct (emitted_step s s1 e E) as [Heq|(c & r & _ & Heq)];
        rewrite Heq in Hmore.
      * now exists more.
      * rewrite <- app_assoc in Hmore. eexists. exact Hmore.
Qed.

Lemma every_event_has_its_status_call_witness :
  (List.length (emitted (Sample.usage_after Sample.two_poll_failures))
   + List.length (pending (Sample.usage_after Sample.two_poll_failures))
   <= status_calls (Sample.usage_after Sample.two_poll_failures))%nat.
Proof.
  assert (Hrun : run initial Sample.two_poll_failures
                 = Some (Sample.usage_after Sample.two_poll_failures))
    by (vm_compute; reflexivity).
  exact (proj1 (every_event_has_its_status_call
                  Sample.two_poll_failures _ Hrun)).
Defined.

Lemma HandlesInv_ext (s s' : State) :
  next_handle s' = next_handle s -> pollInterval s' = pollInterval s ->
  reconnectTimeout s' = reconnectTimeout s ->
  HandlesInv s -> HandlesInv s'.
Proof.
  intros Hh Hp Hr [I1 I2 I3]. constructor; rewrite ?Hh, ?Hp, ?Hr; assumption.
Qed.

Lemma HandlesInv_setupPolling (s : State) :
  HandlesInv s -> HandlesInv (setupPolling s).
Proof.
  intros [I1 I2 I3].
  constructor; cbn [setupPolling next_handle pollInterval reconnectTimeout].
  - intros a [= <-]. lia.
  - intros b Hb. specialize (I2 b Hb). lia.
  - intros a b [= <-] Hb. specialize (I2 b Hb). lia.
Qed.

Lemma HandlesInv_scheduleReconnect (s : State) :
  HandlesInv s -> HandlesInv (scheduleReconnect s).
Proof.
  intros [I1 I2 I3].
  constructor;
    cbn [scheduleReconnect next_handle pollInterval reconnectTimeout].
  - intros a Ha. specialize (I1 a Ha). lia.
  - intros b [= <-]. lia.
  - intros a b Ha [= <-]. specialize (I1 a Ha). lia.
Qed.

Lemma HandlesInv_connect (s : State) : HandlesInv s -> HandlesInv (connect s).
Proof.
  unfold connect. destruct (isConnecting s); [trivial|].
  now apply HandlesInv_ext.
Qed.

Lemma HandlesInv_settle (p : Pending) (r : Res Cli.StatusResult) (s : State) :
  HandlesInv s -> HandlesInv (settle p r s).
Proof.
  intros I. unfold settle. destruct (fetchUsageData_settled r) as [o evs].
  assert (I' : HandlesInv (received (call_id p) evs s))
    by now apply (HandlesInv_ext s).
  destruct (awaiter p), o; simpl; try assumption.
  - apply (HandlesInv_ext (setupPolling (received (call_id p) evs s)));
      try reflexivity. now apply HandlesInv_setupPolling.
  - apply (HandlesInv_ext (scheduleReconnect (received (call_id p) evs s)));
      try reflexivity. now apply HandlesInv_scheduleReconnect.
  - now apply HandlesInv_scheduleReconnect.
Qed.

Lemma HandlesInv_step (s s' : State) (e : Event) :
  HandlesInv s -> step s e = Some s' -> HandlesInv s'.
Proof.
  intros I. destruct e as [| | |ms|h|c r]; simpl.
  - intros [= <-]. now apply HandlesInv_connect.
  - intros [= <-]. constructor; cbn [disconnect pollInterval
      reconnectTimeout]; discriminate.
  - intros [= <-]. now apply (HandlesInv_ext s).
  - destruct (may_elapse (now s) ms (timers s)); [|discriminate].
    intros [= <-]. now apply (HandlesInv_ext s).
  - destruct (ready h (now s) (timers s)) as [t|]; [|discriminate].
    intros [= <-]. unfold fire. destruct (callback t).
    + now apply (HandlesInv_ext s).
    + apply HandlesInv_connect. now apply (HandlesInv_ext s).
  - destruct (find _ (pending s)) as [p|]; [|discriminate].
    intros [= <-]. now apply HandlesInv_settle.
Qed.

Lemma HandlesInv_reachable (tr : list Event) (s : State) :
  run initial tr = Some s -> HandlesInv s.
Proof.
  apply (reachable_invariant HandlesInv).
  - constructor; simpl; discriminate.
  - intros s0 e s1 _ _ I Hstep. exact (HandlesInv_step s0 s1 e I Hstep).
Qed.

Lemma filter_filter_keeps {A : Type} (keep q : A -> bool) (l : list A) :
  (forall a, In a l -> keep a = true -> q a = true) ->
  filter keep (filter q l) = filter keep l.
Proof.
  induction l as [|a l IH]; simpl; [reflexivity|]. intros Hall.
  assert (IH' : filter keep (filter q l) = filter keep l).
  { apply IH. intros b Hb. apply Hall. now right. }
  destruct (keep a) eqn:Hk.
  - rewrite (Hall a (or_introl eq_refl) Hk). simpl. now rewrite Hk, IH'.
  - destruct (q a); simpl; rewrite ?Hk; exact IH'.
Qed.

Lemma filter_clear_opt_other (keep : Timer Callback -> bool)
  (o : option nat) (tbl : Table Callback) :
  (forall t, In t tbl -> keep t = true -> o <> Some (handle t)) ->
  filter keep (clear_opt o tbl) = filter keep tbl.
Proof.
  intros Hother. destruct o as [h|]; [|reflexivity]. simpl. unfold clear.
  apply filter_filter_keeps. intros t Hin Hk.
  apply negb_true_iff, Nat.eqb_neq. intros Heq.
  apply (Hother t Hin Hk). now rewrite Heq.
Qed.

Lemma poll_timers_after_reconnect (s : State) :
  TimersInv s -> HandlesInv s ->
  filter is_poll (timers (scheduleReconnect s)) = filter is_poll (timers s).
Proof.
  intros IT IH. unfold scheduleReconnect, setTimeout. cbn [timers].
  rewrite filter_app. cbn [filter is_poll callback]. rewrite app_nil_r.
  apply filter_clear_opt_other. intros t Hin Hk Heq.
  destruct (ti_poll s IT t Hin Hk) as [Hp _].
  exact (hi_distinct s IH _ _ Hp Heq eq_refl).
Qed.

Lemma reconnect_timers_after_setup (s : State) :
  TimersInv s -> HandlesInv s ->
  filter is_reconnect (timers (setupPolling s))
    = filter is_reconnect (timers s).
Proof.
  intros IT IH. unfold setupPolling, setInterval. cbn [timers].
  rewrite filter_app. cbn [filter is_reconnect callback]. rewrite app_nil_r.
  apply filter_clear_opt_other. intros t Hin Hk Heq.
  destruct (ti_reconnect s IT t Hin Hk) as [Hr _].
  exact (hi_distinct s IH _ _ Heq Hr eq_refl).
Qed.

(** X11. A poll whose status call fails does not stop the polling: whatever
    a call started by a poll tick settles with, the poll timer and
    [this.pollInterval] are what they were, so the next tick comes three
    seconds after the last; a failure only schedules the reconnect beside
    it. *)
Theorem failing_poll_keeps_polling (tr : list Event) (s : State)
  (p : Pending) (r : Res Cli.StatusResult) :
  run initial tr = Some s ->
  In p (pending s) -> awaiter p = ByPollTick ->
  step s (Settle (call_id p) r) = Some (settle p r s)
  /\ filter is_poll (timers (settle p r s)) = filter is_poll (timers s)
  /\ pollInterval (settle p r s) = pollInterval s
  /\ (forall m : string,
         r = Throw m ->
         List.length (timers (settle p r s))
         = S (List.length (filter is_poll (timers s)))).
Proof.
  intros Hrun Hin Ha.
  destruct (invariants_reachable tr s Hrun) as [IT IC].
  pose proof (HandlesInv_reachable tr s Hrun) as IH.
  split.
  { simpl. now rewrite (find_unique (pending s) p (ci_nodup s IC) Hin). }
  unfold settle. destruct (fetchUsageData_settled r) as [o evs] eqn:E.
  rewrite Ha. cbn [resume].
  assert (IT' : TimersInv (received (call_id p) evs s))
    by now apply (TimersInv_ext s).
  assert (IH' : HandlesInv (received (call_id p) evs s))
    by now apply (HandlesInv_ext s).
  destruct o as [u|m'].
  - repeat split; try reflexivity. intros m ->. discriminate E.
  - split; [exact (poll_timers_after_reconnect _ IT' IH')|].
    split; [reflexivity|]. intros m _.
    pose proof (poll_timers_after_reconnect _ IT' IH') as Hpoll.
    pose proof (reconnect_after_schedule _ IT') as Hrec.
    cbn [received timers] in Hpoll.
    rewrite <- Hpoll.
    remember (timers (scheduleReconnect (received (call_id p) evs s)))
      as tbl eqn:Etbl.
    clear - Hrec. revert Hrec.
    generalize ({| handle := next_handle (received (call_id p) evs s);
                   callback := Reconnect;
                   due := now (received (call_id p) evs s) + 5000;
                   repeat := None |}).
    intros t0 Hrec.
    assert (Hsum : forall l : Table Callback,
               List.length l
               = (List.length (filter is_poll l)
                  + List.length (filter is_reconnect l))%nat).
    { induction l as [|t l IHl]; [reflexivity|]. simpl.
      unfold is_poll at 1, is_reconnect at 1.
      destruct (callback t); simpl; lia. }
    rewrite (Hsum tbl), Hrec. simpl. lia.
Qed.

Lemma failing_poll_keeps_polling_witness :
  filter is_poll
    (timers (settle {| call_id := 1; awaiter := ByPollTick |}
               (Throw "Error: Command failed")
               (Sample.usage_after Sample.one_poll_pending)))
  = [{| handle := 0%nat; callback := PollTick; due := 6000;
        repeat := Some 3000 |}].
Proof.
  assert (Hrun : run initial Sample.one_poll_pending
                 = Some (Sample.usage_after Sample.one_poll_pending))
    by (vm_compute; reflexivity).
  destruct (failing_poll_keeps_polling Sample.one_poll_pending _
              {| call_id := 1; awaiter := ByPollTick |}
              (Throw "Error: Command failed") Hrun)
    as (_ & Hpoll & _).
  - vm_compute. now left.
  - reflexivity.
  - rewrite Hpoll. vm_compute. reflexivity.
Defined.

(** X12. For [connect], a status result that says [logged_in: false] is a
    success: nothing is emitted and no reconnect is scheduled, but polling
    is set up, one poll timer due three seconds later, and the connecting
    flag is cleared.  A logged-out stream therefore keeps calling [status]
    every three seconds. *)
Theorem logged_out_connect_still_polls (tr : list Event) (s : State)
  (p : Pending) (statusResult : Cli.StatusResult) :
  run initial tr = Some s ->
  In p (pending s) -> awaiter p = ByConnect ->
  Cli.logged_in statusResult = false ->
  emitted (settle p (Ok statusResult) s) = emitted s
  /\ isConnecting (settle p (Ok statusResult) s) = false
  /\ filter is_poll (timers (settle p (Ok statusResult) s))
     = [{| handle := next_handle s; callback := PollTick;
           due := now s + 3000; repeat := Some 3000 |}]
  /\ filter is_reconnect (timers (settle p (Ok statusResult) s))
     = filter is_reconnect (timers s).
Proof.
  intros Hrun Hin Ha Hout.
  destruct (invariants_reachable tr s Hrun) as [IT IC].
  pose proof (HandlesInv_reachable tr s Hrun) as IH.
  rewrite emitted_settle, isConnecting_settle.
  unfold settle, fetchUsageData_settled, by_connect. rewrite Hout, Ha.
  cbn [negb resume snd].
  assert (IT' : TimersInv (received (call_id p) [] s))
    by now apply (TimersInv_ext s).
  assert (IH' : HandlesInv (received (call_id p) [] s))
    by now apply (HandlesInv_ext s).
  split; [apply app_nil_r|]. split; [reflexivity|]. split.
  - exact (poll_after_setup _ IT').
  - exact (reconnect_timers_after_setup _ IT' IH').
Qed.

Lemma logged_out_connect_still_polls_witness :
  filter is_poll
    (timers (settle {| call_id := 0; awaiter := ByConnect |}
               Sample.logged_out (Sample.usage_after [CallConnect])))
  = [{| handle := 0%nat; callback := PollTick; due := 3000;
        repeat := Some 3000 |}].
Proof.
  assert (Hrun : run initial [CallConnect]
                 = Some (Sample.usage_after [CallConnect]))
    by (vm_compute; reflexivity).
  destruct (logged_out_connect_still_polls [CallConnect] _
              {| call_id := 0; awaiter := ByConnect |}
              {| Cli.logged_in := false; Cli.points := JUndefined;
                 Cli.total_points := JUndefined |} Hrun)
    as (_ & _ & Hpoll & _).
  - vm_compute. now left.
  - reflexivity.
  - reflexivity.
  - exact Hpoll.
Defined.

Lemma within_delay_subset (s s' : State) :
  now s' = now s -> (forall t, In t (timers s') -> In t (timers s)) ->
  within_delay s -> within_delay s'.
Proof.
  intros Hn Hsub Hw t Hin. rewrite Hn. apply Hw. now apply Hsub.
Qed.

Lemma within_delay_setupPolling (s : State) :
  within_delay s -> within_delay (setupPolling s).
Proof.
  intros Hw t Hin. unfold setupPolling, setInterval in Hin.
  cbn [timers] in Hin. cbn [setupPolling now].
  apply in_app_iff in Hin. destruct Hin as [Hin|[<-|[]]].
  - apply In_clear_opt in Hin. now apply Hw.
  - split; [intros _; simpl; unfold timer_delay; simpl; lia | discriminate].
Qed.

Lemma within_delay_scheduleReconnect (s : State) :
  within_delay s -> within_delay (scheduleReconnect s).
Proof.
  intros Hw t Hin. unfold scheduleReconnect, setTimeout in Hin.
  cbn [timers] in Hin. cbn [scheduleReconnect now].
  apply in_app_iff in Hin. destruct Hin as [Hin|[<-|[]]].
  - apply In_clear_opt in Hin. now apply Hw.
  - split; [discriminate | intros _; simpl; unfold timer_delay; simpl; lia].
Qed.

Lemma within_delay_connect (s : State) :
  within_delay s -> within_delay (connect s).
Proof.
  unfold connect. destruct (isConnecting s); [trivial|].
  now apply within_delay_subset.
Qed.

Lemma within_delay_step (s s' : State) (e : Event) :
  TimersInv s -> within_delay s -> step s e = Some s' -> within_delay s'.
Proof.
  intros IT Hw. destruct e as [| | |ms|h|c r]; simpl.
  - intros [= <-]. now apply within_delay_connect.
  - intros [= <-]. apply (within_delay_subset s); [reflexivity| |assumption].
    intros t Hin. cbn [disconnect timers] in Hin.
    apply In_clear_opt in Hin. destruct Hin as [Hin _].
    now apply In_clear_opt in Hin.
  - intros [= <-]. now apply (within_delay_subset s).
  - destruct (may_elapse (now s) ms (timers s)) eqn:Hmay; [|discriminate].
    intros [= <-]. apply may_elapse_spec in Hmay. destruct Hmay as [Hms _].
    intros t Hin. destruct (Hw t Hin) as [Hp Hr]. cbn [elapse now].
    split; intros Hk; [specialize (Hp Hk) | specialize (Hr Hk)]; lia.
  - destruct (ready h (now s) (timers s)) as [t|] eqn:Hr; [|discriminate].
    intros [= <-]. unfold fire. destruct (callback t).
    + intros t' Hin'. cbn [timers now fetchUsageData in_callback] in *.
      apply In_rearm in Hin'.
      destruct Hin' as (t0 & Hin0 & _ & Hc & _ & [Hd|(ms & Hrep & Hd)]).
      * rewrite Hd. unfold is_poll, is_reconnect. rewrite Hc.
        exact (Hw t0 Hin0).
      * unfold is_poll, is_reconnect. rewrite Hc, Hd.
        destruct (kind_cases t0) as [Hk|Hk].
        -- destruct (ti_poll s IT t0 Hin0 Hk) as [_ Hrep'].
           rewrite Hrep' in Hrep. injection Hrep as <-.
           unfold is_poll in Hk. split; [lia|].
           destruct (callback t0); discriminate.
        -- destruct (ti_reconnect s IT t0 Hin0 Hk) as [_ Hrep']. congruence.
    + apply within_delay_connect.
      apply (within_delay_subset s); [reflexivity| |assumption].
      intros t' Hin'. cbn [in_callback timers] in Hin'.
      now apply In_clear in Hin'.
  - destruct (find _ (pending s)) as [p|]; [|discriminate].
    intros [= <-]. unfold settle.
    destruct (fetchUsageData_settled r) as [o evs].
    assert (Hw' : within_delay (received (call_id p) evs s))
      by now apply (within_delay_subset s).
    destruct (awaiter p), o; simpl; try assumption.
    + apply (within_delay_subset
               (setupPolling (received (call_id p) evs s)));
        [reflexivity | trivial | now apply within_delay_setupPolling].
    + apply (within_delay_subset
               (scheduleReconnect (received (call_id p) evs s)));
        [reflexivity | trivial | now apply within_delay_scheduleReconnect].
    + now apply within_delay_scheduleReconnect.
Qed.

(** X13. The delays are fixed: in every reachable state a poll timer has
    period 3000 ms and is due at most 3000 ms ahead, a reconnect timer is
    one-shot and due at most 5000 ms ahead, and neither is overdue.  However
    often the status calls fail, the reconnect delay does not grow. *)
Theorem delays_never_grow (tr : list Event) (s : State)
  (t : Timer Callback) :
  run initial tr = Some s -> In t (timers s) ->
  (is_poll t = true ->
   now s <= due t <= now s + 3000 /\ repeat t = Some 3000)
  /\ (is_reconnect t = true ->
      now s <= due t <= now s + 5000 /\ repeat t = None).
Proof.
  intros Hrun Hin. destruct (invariants_reachable tr s Hrun) as [IT _].
  assert (Hw : within_delay s).
  { revert tr s Hrun Hin IT. intros tr s Hrun _ _. revert tr s Hrun.
    apply (reachable_invariant within_delay); [intros t' []|].
    intros s0 e s1 IT0 _ Hw0 Hstep.
    exact (within_delay_step s0 s1 e IT0 Hw0 Hstep). }
  pose proof (ti_due s IT t Hin) as Hdue. destruct (Hw t Hin) as [Hp Hr].
  split; intros Hk.
  - specialize (Hp Hk). destruct (ti_poll s IT t Hin Hk) as [_ Hrep].
    repeat split; try assumption.
  - specialize (Hr Hk). destruct (ti_reconnect s IT t Hin Hk) as [_ Hrep].
    repeat split; try assumption.
Qed.

Lemma delays_never_grow_witness :
  Forall (fun t => is_reconnect t = true -> due t <= 6000 + 5000)
    (timers (Sample.usage_after Sample.two_poll_failures)).
Proof.
  assert (Hrun : run initial Sample.two_poll_failures
                 = Some (Sample.usage_after Sample.two_poll_failures))
    by (vm_compute; reflexivity).
  apply Forall_forall. intros t Hin Hk.
  destruct (delays_never_grow Sample.two_poll_failures _ t Hrun Hin)
    as [_ Hrec].
  destruct (Hrec Hk) as [[_ Hle] _].
  replace (now (Sample.usage_after Sample.two_poll_failures)) with 6000
    in Hle by (vm_compute; reflexivity).
  exact Hle.
Defined.

Lemma leb_true (a b : Z) : a <= b -> (a <=? b) = true.
Proof. intros H. now apply Z.leb_le. Qed.

Lemma leb_false (a b : Z) : b < a -> (a <=? b) = false.
Proof. intros H. now apply Z.leb_gt. Qed.

Lemma starved_cycle (sr : Cli.StatusResult) (k : nat) (m : string) :
  run (starved sr k) (failing_poll (S (S k)) m) = Some (starved sr (S k)).
Proof.
  unfold failing_poll, starved.
  remember (snd (fetchUsageData_settled (Ok sr))) as evs0 eqn:E0. clear E0.
  replace (3000 * (Z.of_nat (S k) + 2))
    with (3000 * (Z.of_nat k + 1) + 3000 + 3000) by lia.
  replace (3000 * (Z.of_nat (S k) + 1))
    with (3000 * (Z.of_nat k + 1) + 3000) by lia.
  replace (3000 * (Z.of_nat k + 2))
    with (3000 * (Z.of_nat k + 1) + 3000) by lia.
  remember (3000 * (Z.of_nat k + 1)) as T eqn:ET. clear ET.
  cbn [run step now timers].
  unfold may_elapse. cbn [forallb due].
  rewrite (leb_true 0 3000) by lia.
  rewrite (leb_true (T + 3000) (T + 3000)) by lia.
  rewrite (leb_true (T + 3000) (T + 5000)) by lia.
  cbn [andb elapse now timers].
  unfold ready, lookup. cbn [find handle Nat.eqb due].
  rewrite (leb_true (T + 3000) (T + 3000)) by lia.
  cbn [fire callback fetchUsageData in_callback elapse now timers next_handle
       pollInterval reconnectTimeout isConnecting pending status_calls
       emitted fired rearm map handle Nat.eqb repeat app due].
  cbn [find call_id Nat.eqb]. rewrite Nat.eqb_refl.
  unfold settle. cbn [fetchUsageData_settled awaiter resume call_id].
  unfold received, scheduleReconnect, setTimeout, clear_opt, clear, other_call.
  cbn [now timers next_handle pollInterval reconnectTimeout isConnecting
       pending status_calls emitted fired filter call_id handle Nat.eqb].
  rewrite !Nat.eqb_refl. cbn [negb app].
  change (timer_delay 5000) with 5000.
  now rewrite app_nil_r.
Qed.

Lemma starved_run (sr : Cli.StatusResult) (m : string) (n k : nat) :
  run (starved sr k) (failing_polls (S (S k)) n m)
    = Some (starved sr (k + n)).
Proof.
  revert k. induction n as [|n IH]; intros k.
  - now rewrite Nat.add_0_r.
  - cbn [failing_polls]. rewrite run_app, starved_cycle, IH.
    now rewrite Nat.add_succ_r.
Qed.

Lemma starved_first (sr : Cli.StatusResult) (m : string) :
  run initial (connected sr ++ failing_poll 1 m) = Some (starved sr 0).
Proof.
  destruct sr as [[] p t]; [destruct p|]; vm_compute; reflexivity.
Qed.

(** X14. While the polling goes on and every poll fails at once, the
    reconnect never happens.  After a connection and [n + 1] such polls,
    three seconds apart, the [n + 1] timer callbacks that have run were all
    poll ticks and the only status calls are that of the first [connect] and
    those of the polls; the one pending reconnect timer is the one armed by
    the last failure, due 5000 ms after it, while the next poll is due
    3000 ms after it: the reconnect cannot fire yet, and the clock cannot
    reach it before the next poll. *)
Theorem failing_polls_starve_the_reconnect (sr : Cli.StatusResult)
  (m : string) (n : nat) :
  run initial (connected sr ++ failing_polls 1 (S n) m)
    = Some (starved sr n)
  /\ fired (starved sr n) = S n
  /\ status_calls (starved sr n) = S (S n)
  /\ now (starved sr n) = 3000 * (Z.of_nat n + 1)
  /\ filter is_reconnect (timers (starved sr n))
     = [{| handle := S n; callback := Reconnect;
           due := now (starved sr n) + 5000; repeat := None |}]
  /\ filter is_poll (timers (starved sr n))
     = [{| handle := 0%nat; callback := PollTick;
           due := now (starved sr n) + 3000; repeat := Some 3000 |}]
  /\ step (starved sr n) (Fire (S n)) = None
  /\ (forall ms : Z, 3000 < ms -> step (starved sr n) (Elapse ms) = None).
Proof.
  split.
  { cbn [failing_polls]. rewrite app_assoc, run_app, starved_first.
    apply (starved_run sr m n 0). }
  repeat (split; [reflexivity|]). split.
  { unfold starved. cbn [filter is_poll callback now timers].
    now replace (3000 * (Z.of_nat n + 1) + 3000)
      with (3000 * (Z.of_nat n + 2)) by lia. }
  split.
  - unfold starved. cbn [step now timers]. unfold ready, lookup.
    cbn [find handle Nat.eqb]. rewrite Nat.eqb_refl. cbn [due].
    now rewrite leb_false by lia.
  - intros ms Hms. unfold starved. cbn [step now timers].
    unfold may_elapse. cbn [forallb due].
    rewrite (leb_false (3000 * (Z.of_nat n + 1) + ms)) by lia.
    now rewrite andb_false_r.
Qed.

Lemma piled_up_cycle (sr : Cli.StatusResult) (n : nat) :
  run (piled_up sr n) unanswered_poll = Some (piled_up sr (S n)).
Proof.
  unfold unanswered_poll, piled_up.
  remember (snd (fetchUsageData_settled (Ok sr))) as evs0 eqn:E0. clear E0.
  replace (3000 * (Z.of_nat (S n) + 1))
    with (3000 * Z.of_nat n + 3000 + 3000) by lia.
  replace (3000 * Z.of_nat (S n)) with (3000 * Z.of_nat n + 3000) by lia.
  replace (3000 * (Z.of_nat n + 1)) with (3000 * Z.of_nat n + 3000) by lia.
  remember (3000 * Z.of_nat n) as T eqn:ET. clear ET.
  cbn [run step now timers].
  unfold may_elapse. cbn [forallb due].
  rewrite (leb_true 0 3000) by lia.
  rewrite (leb_true (T + 3000) (T + 3000)) by lia.
  cbn [andb elapse now timers].
  unfold ready, lookup. cbn [find handle Nat.eqb due].
  rewrite (leb_true (T + 3000) (T + 3000)) by lia.
  cbn [fire callback fetchUsageData in_callback elapse now timers next_handle
       pollInterval reconnectTimeout isConnecting pending status_calls
       emitted fired rearm map handle Nat.eqb repeat due].
  rewrite seq_S, map_app. reflexivity.
Qed.

Lemma piled_up_run (sr : Cli.StatusResult) (n k : nat) :
  run (piled_up sr k) (unanswered_polls n) = Some (piled_up sr (k + n)).
Proof.
  revert k. induction n as [|n IH]; intros k.
  - now rewrite Nat.add_0_r.
  - cbn [unanswered_polls]. rewrite run_app, piled_up_cycle, IH.
    now rewrite Nat.add_succ_r.
Qed.

Lemma piled_up_first (sr : Cli.StatusResult) :
  run initial (connected sr) = Some (piled_up sr 0).
Proof.
  destruct sr as [[] p t]; [destruct p|]; vm_compute; reflexivity.
Qed.

(** X15. A poll tick does not wait for the status call of the tick before:
    after a connection and [n] ticks, three seconds apart, none of which
    has been answered, [n] status calls are in flight at once, and the next
    tick is armed all the same. *)
Theorem unanswered_polls_pile_up (sr : Cli.StatusResult) (n : nat) :
  run initial (connected sr ++ unanswered_polls n) = Some (piled_up sr n)
  /\ List.length (pending (piled_up sr n)) = n
  /\ Forall (fun p => awaiter p = ByPollTick) (pending (piled_up sr n))
  /\ status_calls (piled_up sr n) = S n
  /\ filter is_poll (timers (piled_up sr n))
     = [{| handle := 0%nat; callback := PollTick;
           due := now (piled_up sr n) + 3000; repeat := Some 3000 |}].
Proof.
  split.
  { rewrite run_app, piled_up_first. apply (piled_up_run sr n 0). }
  unfold piled_up. cbn [pending status_calls timers now].
  split; [now rewrite length_map, length_seq|]. split.
  { apply Forall_forall. intros p Hin. apply in_map_iff in Hin.
    now destruct Hin as (c & <- & _). }
  split; [reflexivity|]. cbn [filter is_poll callback].
  now replace (3000 * Z.of_nat n + 3000)
    with (3000 * (Z.of_nat n + 1)) by lia.
Qed.

Lemma idle_run (tr : list Event) (s s' : State) :
  Forall (fun e => e <> CallConnect) tr ->
  timers s = [] -> isConnecting s = false ->
  (forall p, In p (pending s) -> awaiter p = ByCaller) ->
  run s tr = Some s' ->
  timers s' = [] /\ isConnecting s' = false /\ fired s' = fired s
  /\ status_calls s'
     = (status_calls s
        + List.length
            (filter (fun e => match e with
                              | CallFetchUsageData => true
                              | _ => false
                              end) tr))%nat.
Proof.
  revert s. induction tr as [|e tr IH]; intros s Hall Hnil Hflag Hcalls.
  - intros [= <-]. simpl. repeat split; try assumption. lia.
  - inversion Hall as [|? ? He Hall']; subst. cbn [run].
    destruct (step s e) as [s1|] eqn:E; [|discriminate]. intros Hrun.
    assert (H1 : timers s1 = [] /\ isConnecting s1 = false
                 /\ fired s1 = fired s
                 /\ (forall p, In p (pending s1) -> awaiter p = ByCaller)
                 /\ status_calls s1
                    = (status_calls s
                       + match e with
                         | CallFetchUsageData => 1
                         | _ => 0
                         end)%nat).
    { destruct e as [| | |ms|h|c r]; cbn [step] in E.
      - now elim He.
      - injection E as <-. cbn [disconnect timers isConnecting fired pending
          status_calls]. rewrite Hnil.
        destruct (reconnectTimeout s), (pollInterval s); simpl;
          repeat split; try assumption; lia.
      - injection E as <-. cbn [fetchUsageData timers isConnecting fired
          pending status_calls]. repeat split; try assumption; [|lia].
        intros p Hin. apply in_app_iff in Hin.
        destruct Hin as [Hin|[<-|[]]]; [now apply Hcalls | reflexivity].
      - destruct (may_elapse (now s) ms (timers s)); [|discriminate].
        injection E as <-. cbn [elapse timers isConnecting fired pending
          status_calls]. repeat split; try assumption. lia.
      - rewrite Hnil in E. discriminate E.
      - destruct (find _ (pending s)) as [p|] eqn:Hf; [|discriminate].
        injection E as <-. apply find_call in Hf. destruct Hf as [Hin _].
        unfold settle. destruct (fetchUsageData_settled r) as [o evs].
        rewrite (Hcalls p Hin). cbn [resume received timers isConnecting
          fired pending status_calls]. repeat split; try assumption; [|lia].
        intros p' Hin'. apply filter_In in Hin'. now apply Hcalls. }
    destruct H1 as (Hnil1 & Hflag1 & Hfired1 & Hcalls1 & Hcount1).
    destruct (IH s1 Hall' Hnil1 Hflag1 Hcalls1 Hrun)
      as (Hnil' & Hflag' & Hfired' & Hcount').
    repeat split; try assumption; [congruence|].
    rewrite Hcount', Hcount1. cbn [filter].
    destruct e; cbn [List.length]; lia.
Qed.

(** X18. Nothing but [connect] starts the supervisor.  Along any run from
    the initial state in which [connect] is never called (manual
    [fetchUsageData] calls, their settling with any result, [disconnect],
    the passing of time), no timer is ever armed, no timer callback runs,
    the connecting flag stays clear, and the status calls made are exactly
    the manual ones: a failing manual refresh schedules no reconnect, and
    [disconnect] on the idle supervisor changes nothing of this. *)
Theorem only_connect_starts_the_supervisor (tr : list Event) (s : State) :
  Forall (fun e => e <> CallConnect) tr ->
  run initial tr = Some s ->
  timers s = [] /\ isConnecting s = false /\ fired s = 0%nat
  /\ status_calls s
     = List.length
         (filter (fun e => match e with
                           | CallFetchUsageData => true
                           | _ => false
                           end) tr).
Proof.
  intros Hall Hrun.
  destruct (idle_run tr initial s Hall eq_refl eq_refl) as (H1 & H2 & H3 & H4);
    [intros p [] | exact Hrun |].
  repeat split; assumption.
Qed.

Lemma only_connect_starts_the_supervisor_witness :
  timers (Sample.usage_after Sample.refresh_fails) = []
  /\ status_calls (Sample.usage_after Sample.refresh_fails) = 1%nat.
Proof.
  assert (Hrun : run initial Sample.refresh_fails
                 = Some (Sample.usage_after Sample.refresh_fails))
    by (vm_compute; reflexivity).
  assert (Hall : Forall (fun e => e <> CallConnect) Sample.refresh_fails)
    by (repeat constructor; discriminate).
  destruct (only_connect_starts_the_supervisor Sample.refresh_fails _
              Hall Hrun) as (Hnil & _ & _ & Hcalls).
  split; [exact Hnil | exact Hcalls].
Defined.

End UsageMore.

(** * Further properties of the login poller *)
Section LoginMore.
Import Timers LoginPoller LoginInv.

(** The calls made so far fit in the time elapsed and in the timeout, and
    every success signalled has a call of its own. *)
Lemma login_budget (ts : option Z) (tr : list Event) (s : State) :
  run (start ts) tr = Some s ->
  3000 * Z.of_nat (status_calls s) <= now s
  /\ 3000 * Z.of_nat (status_calls s)
     <= timer_delay (timeoutSeconds ts * 1000)
  /\ (successes s + List.length (pending s) <= status_calls s)%nat.
Proof.
  revert tr s. apply login_invariant.
  - cbn [start now status_calls successes pending List.length].
    pose proof (timer_delay_pos (timeoutSeconds ts * 1000)). lia.
  - intros s e s1 I (Hnow & Hmax & Hcalls).
    destruct e as [ms|h|c r]; cbn [step].
    + destruct (may_elapse (now s) ms (timers s)) eqn:Hmay; [|discriminate].
      intros [= <-]. apply may_elapse_spec in Hmay.
      cbn [elapse now status_calls successes pending]. lia.
    + destruct (ready h (now s) (timers s)) as [t|] eqn:Hr; [|discriminate].
      intros [= <-]. apply ready_In in Hr. destruct Hr as (Hin & _ & Hdue).
      unfold fire. destruct (callback t) eqn:Hcb.
      * assert (Hk : is_poll t = true) by (unfold is_poll; now rewrite Hcb).
        destruct (li_poll ts s I t Hin Hk) as (_ & _ & Hd).
        pose proof (li_due ts s I t Hin) as Hle.
        assert (Harmed : timeouts s = 0%nat).
        { destruct (Nat.eq_dec (timeouts s) 0) as [|Hne]; [assumption|].
          destruct (li_fired ts s I Hne) as (_ & Hnil & _).
          rewrite Hnil in Hin. elim Hin. }
        pose proof (li_due ts s I _ (li_armed ts s I Harmed)) as Hmaxnow.
        change (due (timeout_timer ts))
          with (timer_delay (timeoutSeconds ts * 1000)) in Hmaxnow.
        cbn [poll now status_calls successes pending].
        rewrite length_app. cbn [List.length]. lia.
      * cbn [timed_out now status_calls successes pending]. lia.
    + destruct (existsb (Nat.eqb c) (pending s)) eqn:Hex; [|discriminate].
      intros [= <-]. apply remove_call_shorter in Hex. unfold settle.
      destruct r as [sr|m]; [destruct (Cli.logged_in sr)|];
        cbn [now status_calls successes pending]; lia.
Qed.

(** X16. The login poller stays within its budget: the status calls made
    so far, one every 3000 ms, fit in the time that has passed and in the
    timeout, so with the default of 600 seconds there are never more than
    200; and success is not signalled more often than status calls have
    been answered. *)
Theorem login_poller_call_budget (timeout_seconds : option Z)
  (tr : list Event) (s : State) :
  run (start timeout_seconds) tr = Some s ->
  3000 * Z.of_nat (status_calls s) <= now s
  /\ 3000 * Z.of_nat (status_calls s)
     <= timer_delay (timeoutSeconds timeout_seconds * 1000)
  /\ (timeout_seconds = None -> (status_calls s <= 200)%nat)
  /\ (successes s + List.length (pending s) <= status_calls s)%nat.
Proof.
  intros Hrun.
  destruct (login_budget timeout_seconds tr s Hrun) as (Hnow & Hmax & Hcalls).
  repeat split; try assumption.
  intros ->. change (timer_delay (timeoutSeconds None * 1000)) with 600000
    in Hmax. lia.
Qed.

Lemma login_poller_call_budget_witness :
  3000 * Z.of_nat
           (status_calls (Sample.login_after (Some 9) Sample.never_logs_in))
  <= 9000.
Proof.
  assert (Hrun : run (start (Some 9)) Sample.never_logs_in
                 = Some (Sample.login_after (Some 9) Sample.never_logs_in))
    by (vm_compute; reflexivity).
  exact (proj1 (proj2 (login_poller_call_budget (Some 9)
                         Sample.never_logs_in _ Hrun))).
Defined.

(** X17. A timeout that leaves no room for a poll makes the login
    unnoticeable: when [timeout_seconds * 1000] is below 3000, or above
    2^31-1 and therefore taken as 1 ms by the timer, the timeout comes
    before the first poll, so no status call is ever made and success is
    never signalled, along every run. *)
Theorem login_poller_gives_up_before_first_poll (timeout_seconds : Z)
  (tr : list Event) (s : State) :
  timeout_seconds * 1000 < 3000 \/ 2147483647 < timeout_seconds * 1000 ->
  run (start (Some timeout_seconds)) tr = Some s ->
  status_calls s = 0%nat /\ successes s = 0%nat /\ connects s = 0%nat.
Proof.
  intros Hrange Hrun.
  destruct (login_budget (Some timeout_seconds) tr s Hrun)
    as (Hnow & Hmax & Hcalls).
  pose proof (Inv_run (Some timeout_seconds) tr _ s Hrun
                (Inv_start (Some timeout_seconds))) as I.
  assert (Hshort : timer_delay (timeoutSeconds (Some timeout_seconds) * 1000)
                   < 3000).
  { cbn [timeoutSeconds]. unfold timer_delay.
    destruct (Z.ltb_spec (timeout_seconds * 1000) 1); simpl; [lia|].
    destruct (Z.ltb_spec 2147483647 (timeout_seconds * 1000)); lia. }
  assert (Hzero : status_calls s = 0%nat) by lia.
  split; [exact Hzero|]. split; [lia|].
  rewrite (li_connects _ s I). lia.
Qed.

Lemma login_poller_gives_up_before_first_poll_witness :
  run (start (Some 2147484)) [Elapse 1; Fire 1; Elapse 600000]
    = Some (Sample.login_after (Some 2147484)
              [Elapse 1; Fire 1; Elapse 600000])
  /\ status_calls (Sample.login_after (Some 2147484)
                     [Elapse 1; Fire 1; Elapse 600000]) = 0%nat.
Proof.
  assert (Hrun : run (start (Some 2147484)) [Elapse 1; Fire 1; Elapse 600000]
                 = Some (Sample.login_after (Some 2147484)
                           [Elapse 1; Fire 1; Elapse 600000]))
    by (vm_compute; reflexivity).
  split; [exact Hrun|].
  refine (proj1 (login_poller_gives_up_before_first_poll 2147484
                   [Elapse 1; Fire 1; Elapse 600000] _ _ Hrun)).
  right. reflexivity.
Defined.

End LoginMore.
